(** * Learnon education workflow: models, workflow catalog, session service,
      orchestrator and API routes, embedded from the Python sources under
      [src/python/src/server].

    Python values are embedded as follows.
    - [int] is [Z]; [float] is the kernel's binary64 [float] (PrimFloat), so
      that the comparisons against the literals [0.6] and [0.85] are the ones
      Python performs; [str] is [string]; [None]-able values are [option].
    - a [dict] with string keys is a [gmap string _]; a [list] is a [list].
    - list indexing and slicing follow Python for negative indices.
    - exceptions are values of [exn], carried by the result type [res].
    - calls to collaborators that are not part of this code base (the
      Supabase client, the RAG service, the progress service, [uuid4],
      [datetime.now]) take their answers from a [world] record and are
      logged in a trace of [event]s. *)

From Stdlib Require Import ZArith List Lia Bool Floats.
From stdpp Require Import base option list strings gmap.
Import ListNotations.

Local Open Scope string_scope.
Local Open Scope Z_scope.

(* A decimal literal denotes the nearest binary64 value, as in Python. *)
#[local] Set Warnings "-inexact-float".

(** ** Python runtime helpers *)

(** The exceptions this code meets, all of them subclasses of [Exception].
    What the handlers [except Exception] of the code do not catch (a task
    cancellation, a keyboard interrupt) is not an [exn]. *)
Inductive exn : Type :=
| IndexError
| KeyError (key : string)
| OverflowError
| ValueError (value : option string) (enum_class : string)
| ExternalError (message : string).

Inductive res (A : Type) : Type :=
| Ok (a : A)
| Raise (e : exn).
Arguments Ok {A} a.
Arguments Raise {A} e.

#[global] Instance res_ret : MRet res := fun A a => Ok a.
#[global] Instance res_bind : MBind res := fun A B f m =>
  match m with
  | Ok a => f a
  | Raise e => Raise e
  end.

(** [l[i]] on a Python list. *)
Definition py_getitem {A} (l : list A) (i : Z) : res A :=
  let n := Z.of_nat (length l) in
  let j := if i <? 0 then i + n else i in
  if (j <? 0) || (n <=? j) then Raise IndexError
  else match nth_error l (Z.to_nat j) with
       | Some x => Ok x
       | None => Raise IndexError
       end.

(** The position a slice bound [i] denotes in a list of length [n]. *)
Definition py_slice_bound (n : nat) (i : Z) : nat :=
  let j := if i <? 0 then i + Z.of_nat n else i in
  Z.to_nat (Z.min (Z.max j 0) (Z.of_nat n)).

(** [l[:i]] and [l[i:]]. *)
Definition py_slice_to {A} (l : list A) (i : Z) : list A :=
  firstn (py_slice_bound (length l) i) l.
Definition py_slice_from {A} (l : list A) (i : Z) : list A :=
  skipn (py_slice_bound (length l) i) l.

(** JSON-like values held in a [context] dict. *)
#[local] Set Warnings "-register-all".
Inductive pyval : Type :=
| PNone
| PBool (b : bool)
| PInt (z : Z)
| PFloat (f : float)
| PStr (s : string)
| PList (l : list pyval)
| PDict (d : list (string * pyval)).

(** [isinstance(v, (int, float))]; [bool] is a subclass of [int]. *)
Definition is_int_or_float (v : option pyval) : bool :=
  match v with
  | Some (PBool _) | Some (PInt _) | Some (PFloat _) => true
  | _ => false
  end.

(** [float(z)] for an [int]: correctly rounded, [OverflowError] when the
    rounded value is not finite. *)
Definition float_of_int (z : Z) : res float :=
  match binary_normalize prec emax z 0 false with
  | S754_infinity _ => Raise OverflowError
  | sf => Ok (SF2Prim sf)
  end.

(** [float(v)] for the values accepted by [is_int_or_float]. *)
Definition py_float (v : pyval) : res float :=
  match v with
  | PFloat f => Ok f
  | PInt z => float_of_int z
  | PBool b => float_of_int (if b then 1 else 0)
  | _ => Raise (ValueError None "float")
  end.

(** Truthiness of an optional [str]. *)
Definition truthy_str (s : option string) : bool :=
  match s with
  | None => false
  | Some s => negb (String.eqb s "")
  end.

(** ** models.py *)

Inductive ProcessType : Type :=
| fundamental_explanation
| guided_practice
| assessment.

Inductive StepType : Type :=
| explain
| example
| exercise
| evaluate
| feedback.

(** Both enums derive from [str]: a member hashes and compares as its value. *)
Definition ProcessType_value (p : ProcessType) : string :=
  match p with
  | fundamental_explanation => "fundamental_explanation"
  | guided_practice => "guided_practice"
  | assessment => "assessment"
  end.

Definition StepType_value (s : StepType) : string :=
  match s with
  | explain => "explain"
  | example => "example"
  | exercise => "exercise"
  | evaluate => "evaluate"
  | feedback => "feedback"
  end.

(** [ProcessType(v)] and [StepType(v)]: lookup by value, [ValueError] when
    no member has that value. *)
Definition ProcessType_of_value (v : string) : res ProcessType :=
  if String.eqb v "fundamental_explanation" then Ok fundamental_explanation
  else if String.eqb v "guided_practice" then Ok guided_practice
  else if String.eqb v "assessment" then Ok assessment
  else Raise (ValueError (Some v) "ProcessType").

Definition StepType_of_value (v : option string) : res StepType :=
  match v with
  | None => Raise (ValueError None "StepType")
  | Some v =>
      if String.eqb v "explain" then Ok explain
      else if String.eqb v "example" then Ok example
      else if String.eqb v "exercise" then Ok exercise
      else if String.eqb v "evaluate" then Ok evaluate
      else if String.eqb v "feedback" then Ok feedback
      else Raise (ValueError (Some v) "StepType")
  end.

(** [str(member)] is [Enum.__str__], also for an enum that derives from
    [str]: class name, dot, member name. *)
Definition ProcessType_str (p : ProcessType) : string :=
  "ProcessType." +:+ ProcessType_value p.
Definition StepType_str (s : StepType) : string :=
  "StepType." +:+ StepType_value s.

(** [a == b] on steps. *)
Definition StepType_eqb (a b : StepType) : bool :=
  match a, b with
  | explain, explain | example, example | exercise, exercise
  | evaluate, evaluate | feedback, feedback => true
  | _, _ => false
  end.

Record StepResult : Type := mkStepResult {
  step : StepType;
  content : string;
  context : gmap string pyval;
  sr_created_at : string
}.

Record ProcessInstance : Type := mkProcessInstance {
  id : string;
  user_id : string;
  topic : string;
  process_type : ProcessType;
  steps : list StepType;
  current_index : Z;
  history : list StepResult;
  created_at : string;
  updated_at : string
}.

(** Attribute updates: [self.steps = v], [self.history.append(r)] and
    [self.current_index = v]. *)
Definition set_steps (self : ProcessInstance) (v : list StepType) : ProcessInstance :=
  {| id := id self; user_id := user_id self; topic := topic self;
     process_type := process_type self; steps := v;
     current_index := current_index self; history := history self;
     created_at := created_at self; updated_at := updated_at self |}.

Definition history_append (self : ProcessInstance) (r : StepResult) : ProcessInstance :=
  {| id := id self; user_id := user_id self; topic := topic self;
     process_type := process_type self; steps := steps self;
     current_index := current_index self; history := (history self ++ [r])%list;
     created_at := created_at self; updated_at := updated_at self |}.

Definition set_current_index (self : ProcessInstance) (v : Z) : ProcessInstance :=
  {| id := id self; user_id := user_id self; topic := topic self;
     process_type := process_type self; steps := steps self;
     current_index := v; history := history self;
     created_at := created_at self; updated_at := updated_at self |}.

Definition current_step (self : ProcessInstance) : res StepType :=
  py_getitem (steps self) (current_index self).

Definition is_complete (self : ProcessInstance) : bool :=
  Z.of_nat (length (steps self)) <=? current_index self.

(** ** workflows.py *)

Definition DEFAULT_WORKFLOWS : gmap string (list StepType) :=
  <[ProcessType_value fundamental_explanation :=
      [explain; example; exercise; evaluate; feedback]]>
  (<[ProcessType_value guided_practice := [example; exercise; feedback]]>
  (<[ProcessType_value assessment := [exercise; evaluate; feedback]]> ∅)).

(** [d[k]]. *)
Definition dict_getitem {V} (d : gmap string V) (k : string) : res V :=
  match d !! k with
  | Some v => Ok v
  | None => Raise (KeyError k)
  end.

(** The argument is annotated [ProcessType]; being a [str], it is looked up
    by its value, and the default is evaluated before the call to [get]. *)
Definition get_workflow (process_type : string) : res (list StepType) :=
  dflt ← dict_getitem DEFAULT_WORKFLOWS (ProcessType_value fundamental_explanation);
  Ok (default dflt (DEFAULT_WORKFLOWS !! process_type)).

(** ** Collaborators outside this code base *)

(** The parts of an f-string whose rendering depends on the interpreter:
    the text of an enum member and of a float under [:.2f]. *)
Inductive fpart : Type :=
| Lit (s : string)
| Fmt_step (s : StepType)
| Fmt_2f (f : float).
Definition fstring : Type := list fpart.

(** A row of the [education_sessions] table and an entry of its [history]
    column. A field holds a value of the type that models.py declares for
    the attribute it feeds; what [None] stands for follows the way the code
    reads the field:
    - [hr_step], read with [h.get("step")], and [hr_context],
      [hr_created_at], [r_steps], [r_history], [r_created_at] and
      [r_updated_at], read with [x.get(key) or default]: the key is missing
      or holds null, which these reads do not tell apart;
    - [hr_content] and [r_current_index], read with [x.get(key, default)]:
      the key is missing, the one case in which the default is taken.
    A null under ["content"] or ["current_index"] is not a value of these
    types: it would give an instance whose [content] or [current_index] is
    [None] where models.py declares a [str] and an [int] (with such a cursor
    [is_complete] raises [TypeError]). Rows of that shape are outside this
    development; nothing below is stated about them. *)
Record history_row : Type := mkHistoryRow {
  hr_step : option string;
  hr_content : option string;
  hr_context : option (gmap string pyval);
  hr_created_at : option string
}.

Record session_row : Type := mkSessionRow {
  r_id : string;
  r_user_id : string;
  r_topic : string;
  r_process_type : string;
  r_steps : option (list string);
  r_current_index : option Z;
  r_history : option (list history_row);
  r_created_at : option string;
  r_updated_at : option string
}.

(** What [.execute()] gives: an exception, or a response whose [data] is a
    list of rows. *)
Inductive db_response : Type :=
| DbRaise (e : exn)
| DbData (data : list session_row).

(** What the collaborators answer during one operation:
    - [uuid4]: the text of [uuid.uuid4()];
    - [now]: the text of [datetime.now().isoformat()] (one reading of the
      clock stands for all the readings of the operation);
    - [db_insert payload], [db_select id], [db_update id payload]: what
      [.execute()] gives for the insert, the select by id and the update by
      id on the [education_sessions] table;
    - [rag_search_documents query match_count]: the value or the exception
      of [RAGService.search_documents];
    - [progress_*_raises]: whether the progress service's [start_operation],
      [update_progress] and [complete_operation] raise. *)
Record world : Type := mkWorld {
  uuid4 : string;
  now : string;
  db_insert : session_row -> db_response;
  db_select : string -> db_response;
  db_update : string -> session_row -> db_response;
  rag_search_documents : fstring -> Z -> res pyval;
  progress_start_raises : bool;
  progress_update_raises : bool;
  progress_complete_raises : bool
}.

(** The calls made to the collaborators. A progress event keeps the id, the
    status and the step of its payload; the percentage and the log line,
    which nothing reads back, are left out. *)
Inductive event : Type :=
| Db_insert (payload : session_row)
| Db_select (session_id : string)
| Db_update (session_id : string) (payload : session_row)
| Rag_search (query : fstring) (match_count : Z)
| Progress_start (pid kind topic_ step_ : string)
| Progress_update (pid status step_ : string)
| Progress_complete (pid : string).

(** A computation: the trace of calls it made, and its result or the
    exception that ended it. *)
Definition M (A : Type) : Type := list event * res A.

#[global] Instance M_ret : MRet M := fun A a => ([], Ok a).
#[global] Instance M_bind : MBind M := fun A B f m =>
  match m with
  | (t, Ok a) => let '(t', r) := f a in ((t ++ t')%list, r)
  | (t, Raise e) => (t, Raise e)
  end.

Definition lift {A} (r : res A) : M A := ([], r).
Definition emit (e : event) : M unit := ([e], Ok tt).

(** [try: m except Exception: pass]. *)
Definition try_pass (m : M unit) : M unit := (fst m, Ok tt).

Fixpoint res_map {A B} (f : A -> res B) (l : list A) : res (list B) :=
  match l with
  | [] => Ok []
  | x :: l => y ← f x; ys ← res_map f l; Ok (y :: ys)
  end.

(** ** session_service.py *)

(** The second component of the pair the service returns: a dict holding
    either a ["session"] or an ["error"]. *)
Inductive error_text : Type :=
| Err (s : string)
| Err_str (e : exn).

Inductive payload : Type :=
| P_session (session : ProcessInstance)
| P_error (error : error_text).

(** [res["session"]]. *)
Definition payload_session (p : payload) : res ProcessInstance :=
  match p with
  | P_session i => Ok i
  | P_error _ => Raise (KeyError "session")
  end.

(** [x or []] and [x or fallback] for a string. *)
Definition or_nil {A} (x : option (list A)) : list A := default [] x.
Definition or_str (x : option string) (fallback : string) : string :=
  match x with
  | Some s => if String.eqb s "" then fallback else s
  | None => fallback
  end.

Definition _serialize_instance (w : world) (inst : ProcessInstance) : session_row :=
  {| r_id := id inst;
     r_user_id := user_id inst;
     r_topic := topic inst;
     r_process_type := ProcessType_str (process_type inst);
     r_steps := Some (map StepType_str (steps inst));
     r_current_index := Some (current_index inst);
     r_history :=
       Some (map (fun h => {| hr_step := Some (StepType_str (step h));
                              hr_content := Some (content h);
                              hr_context := Some (context h);
                              hr_created_at := Some (sr_created_at h) |})
                 (history inst));
     r_created_at := Some (created_at inst);
     r_updated_at := Some (now w) |}.

Definition _deserialize_instance (w : world) (row : session_row) : res ProcessInstance :=
  history_ ← res_map (fun h =>
                st ← StepType_of_value (hr_step h);
                Ok {| step := st;
                      (* h.get("content", default): the empty string for a missing key *)
                      content := default "" (hr_content h);
                      context := default ∅ (hr_context h);
                      sr_created_at := or_str (hr_created_at h) (now w) |})
             (or_nil (r_history row));
  steps_ ← res_map (fun s => StepType_of_value (Some s)) (or_nil (r_steps row));
  ptype ← ProcessType_of_value (r_process_type row);
  Ok {| id := r_id row;
        user_id := r_user_id row;
        topic := r_topic row;
        process_type := ptype;
        steps := steps_;
        (* row.get("current_index", 0): 0 for a missing key *)
        current_index := default 0 (r_current_index row);
        history := history_;
        created_at := or_str (r_created_at row) (now w);
        updated_at := or_str (r_updated_at row) (now w) |}.

(** The body shared by the three single-row operations: everything sits in
    [try ... except Exception as e: return False, {"error": str(e)}]. *)
Definition session_of_response (w : world) (resp : db_response) (empty : string)
  : bool * payload :=
  match resp with
  | DbRaise e => (false, P_error (Err_str e))
  | DbData [] => (false, P_error (Err empty))
  | DbData (row :: _) =>
      match _deserialize_instance w row with
      | Ok inst => (true, P_session inst)
      | Raise e => (false, P_error (Err_str e))
      end
  end.

Definition create_session (w : world) (instance : ProcessInstance) : M (bool * payload) :=
  let payload_ := _serialize_instance w instance in
  _ ← emit (Db_insert payload_);
  mret (session_of_response w (db_insert w payload_) "failed_to_insert").

Definition get_session (w : world) (session_id : string) : M (bool * payload) :=
  _ ← emit (Db_select session_id);
  mret (session_of_response w (db_select w session_id) "not_found").

Definition save_session (w : world) (instance : ProcessInstance) : M (bool * payload) :=
  let payload_ := _serialize_instance w instance in
  _ ← emit (Db_update (id instance) payload_);
  mret (session_of_response w (db_update w (id instance) payload_) "update_failed").

(** ** The progress service: every call is logged, then may raise. *)

Definition progress_call (ev : event) (raises : bool) : M unit :=
  _ ← emit ev;
  if raises then lift (Raise (ExternalError "progress_service")) else mret tt.

(** ** orchestrator.py *)

Module orchestrator.

(** The dicts returned by [advance]. *)
Inductive advance_result : Type :=
| Advance_not_found
    (* {"success": False, "error": "process_not_found"} *)
| Advance_completed (instance : ProcessInstance)
    (* {"success": True, "completed": True, "instance": instance} *)
| Advance_ok (completed : bool) (result : StepResult) (instance : ProcessInstance).
    (* {"success": True, "completed": ..., "result": ..., "instance": ...} *)

(** The dicts returned by [suggest_next_step]. *)
Inductive suggest_result : Type :=
| Suggest_not_found
    (* {"success": False, "error": "process_not_found"} *)
| Suggest_completed
    (* {"success": True, "completed": True, "suggestion": None} *)
| Suggest_ok (completed : bool) (suggestion : option string)
             (rationale : fstring) (confidence : float) (applied : bool).

Definition start_process (w : world) (user_id_ topic_ process_type_ : string)
  : M ProcessInstance :=
  ptype ← lift (ProcessType_of_value process_type_);
  steps_ ← lift (get_workflow (ProcessType_value ptype));
  let pid := uuid4 w in
  let instance :=
    {| id := pid; user_id := user_id_; topic := topic_; process_type := ptype;
       steps := steps_; current_index := 0; history := [];
       created_at := now w; updated_at := now w |} in
  (* Persist session *)
  _ ← create_session w instance;
  (* Fire initial progress event *)
  _ ← try_pass (
        step0 ← lift (py_getitem steps_ 0);
        progress_call (Progress_start pid "education_process" topic_ (StepType_str step0))
                      (progress_start_raises w));
  mret instance.

Definition get_process (w : world) (process_id : string) : M (option ProcessInstance) :=
  '(ok, res_) ← get_session w process_id;
  if negb ok then mret None
  else instance ← lift (payload_session res_); mret (Some instance).

(** The content and score of a step; [{score:.2f}] renders [1.0] as [1.00]
    and [0.5] as [0.50]. *)
Definition step_content (topic_ : string) (step_ : StepType) (user_input : option string)
  : string * option float :=
  match step_ with
  | explain =>
      ("Explicação do tópico '" +:+ topic_ +:+ "' com base em fontes relevantes.", None)
  | example => ("Exemplo prático sobre '" +:+ topic_ +:+ "'.", None)
  | exercise =>
      ("Exercício proposto: resolva um problema relacionado a '" +:+ topic_ +:+ "'.", None)
  | evaluate =>
      (* In real impl, analyze user_input *)
      if truthy_str user_input
      then ("Avaliação da resposta: score=1.00.", Some 1.0%float)
      else ("Avaliação da resposta: score=0.50.", Some 0.5%float)
  | feedback => ("Feedback objetivo e próximos passos.", None)
  end.

Definition pyval_of_str (s : option string) : pyval :=
  match s with
  | None => PNone
  | Some s => PStr s
  end.

(** [advance] once the session has been loaded. *)
Definition advance_on (w : world) (process_id : string) (instance : ProcessInstance)
    (user_input : option string) : M advance_result :=
  if is_complete instance then mret (Advance_completed instance)
  else
    step_ ← lift (current_step instance);
    (* Retrieve supporting context via RAG *)
    let query := [Lit (topic instance); Lit " — etapa: "; Fmt_step step_] in
    _ ← emit (Rag_search query 5);
    let context_chunks :=
      match rag_search_documents w query 5 with
      | Ok chunks => chunks
      | Raise _ => PList []
      end in
    (* Build content per step *)
    let '(content_, score) := step_content (topic instance) step_ user_input in
    let context0 : gmap string pyval :=
      <["user_input" := pyval_of_str user_input]> (<["citations" := context_chunks]> ∅) in
    let context_ :=
      match score with
      | Some s => <["score" := PFloat s]> context0
      | None => context0
      end in
    let result :=
      {| step := step_; content := content_; context := context_;
         sr_created_at := now w |} in
    let instance := history_append instance result in
    let instance' := set_current_index instance (current_index instance + 1) in
    (* Persist update *)
    _ ← save_session w instance';
    (* Broadcast progress update *)
    _ ← try_pass (
          _ ← progress_call
                (Progress_update process_id
                   (if negb (is_complete instance') then "in_progress" else "completed")
                   (StepType_str step_))
                (progress_update_raises w);
          if is_complete instance'
          then progress_call (Progress_complete process_id) (progress_complete_raises w)
          else mret tt);
    mret (Advance_ok (is_complete instance') result instance').

Definition advance (w : world) (process_id : string) (user_input : option string)
  : M advance_result :=
  '(ok, res_) ← get_session w process_id;
  if negb ok then mret Advance_not_found
  else
    instance ← lift (payload_session res_);
    advance_on w process_id instance user_input.

(** The loop over [reversed(instance.history)]: the first entry that is an
    [evaluate] step with a numeric ["score"] ends it. *)
Definition stops_scan (h : StepResult) : bool :=
  StepType_eqb (step h) evaluate && is_int_or_float (context h !! "score").

Fixpoint scan_last_score (reversed_history : list StepResult) : res (option float) :=
  match reversed_history with
  | [] => Ok None
  | h :: rest =>
      if stops_scan h
      then
        v ← dict_getitem (context h) "score";
        f ← py_float v;
        Ok (Some f)
      else scan_last_score rest
  end.

(** Determine last known score if not provided. *)
Definition last_known_score (instance : ProcessInstance) (score : option float)
  : res (option float) :=
  match score with
  | Some s => Ok (Some s)
  | None => scan_last_score (rev (history instance))
  end.

(** The decision on [last_score], starting from the default progression. *)
Definition decide_suggestion (steps_ : list StepType) (default_next : option StepType)
    (last_score : option float) : option StepType * fstring * float :=
  match last_score with
  | None => (default_next, [Lit "Progredir conforme o fluxo padrão."], 0.6%float)
  | Some s =>
      if (s <? 0.6)%float then
        (* Go back to reinforce with explain or example *)
        (Some (if existsb (StepType_eqb explain) steps_ then explain else example),
         [Lit "Desempenho baixo (score="; Fmt_2f s; Lit "); reforçar explicação/exemplo."],
         0.8%float)
      else if (s <? 0.85)%float then
        (Some exercise,
         [Lit "Desempenho razoável (score="; Fmt_2f s; Lit "); praticar com novo exercício."],
         0.7%float)
      else
        (Some feedback,
         [Lit "Desempenho alto (score="; Fmt_2f s; Lit "); consolidar com feedback e concluir."],
         0.75%float)
  end.

(** [str(suggestion) if suggestion else None]: a step is a [str], true when
    its value is not empty. *)
Definition suggestion_str (suggestion : option StepType) : option string :=
  match suggestion with
  | Some s => if negb (String.eqb (StepType_value s) "") then Some (StepType_str s) else None
  | None => None
  end.

(** [suggest_next_step] once the session has been loaded; the instance is
    returned as the call leaves it. *)
Definition suggest_next_step_on (w : world) (instance : ProcessInstance)
    (score : option float) (apply : bool) : M (ProcessInstance * suggest_result) :=
  if is_complete instance then mret (instance, Suggest_completed)
  else
    last_score ← lift (last_known_score instance score);
    (* Default: proceed to the next planned step *)
    default_next ← lift (
      if current_index instance <? Z.of_nat (length (steps instance))
      then s ← py_getitem (steps instance) (current_index instance); Ok (Some s)
      else Ok None);
    let '(suggestion, rationale, confidence) :=
      decide_suggestion (steps instance) default_next last_score in
    '(instance', applied) ←
      match suggestion with
      | Some s =>
          if apply then
            (* Insert suggestion at current index so it becomes the next step *)
            let instance' :=
              set_steps instance
                (py_slice_to (steps instance) (current_index instance)
                 ++ [s]
                 ++ py_slice_from (steps instance) (current_index instance))%list in
            _ ← save_session w instance';
            mret (instance', true)
          else mret (instance, false)
      | None => mret (instance, false)
      end;
    mret (instance',
          Suggest_ok (is_complete instance') (suggestion_str suggestion)
                     rationale confidence applied).

Definition suggest_next_step (w : world) (process_id : string)
    (score : option float) (apply : bool) : M suggest_result :=
  '(ok, res_) ← get_session w process_id;
  if negb ok then mret Suggest_not_found
  else
    instance ← lift (payload_session res_);
    '(_, r) ← suggest_next_step_on w instance score apply;
    mret r.

End orchestrator.

(** ** education_api.py *)

Module education_api.

Inductive http (A : Type) : Type :=
| Response (body : A)
| HTTPException (status_code : Z) (detail : error_text).
Arguments Response {A} body.
Arguments HTTPException {A} status_code detail.

Record StartProcessRequest : Type := mkStartProcessRequest {
  req_user_id : string;
  req_topic : string;
  req_process_type : string
}.

Record start_response : Type := mkStartResponse {
  sp_process_id : string;
  sp_process_type : ProcessType;
  sp_steps : list string;
  sp_current_step : string
}.

Record get_response : Type := mkGetResponse {
  gp_process_id : string;
  gp_process_type : string;
  gp_topic : string;
  gp_steps : list string;
  gp_current_index : Z;
  gp_current_step : option string;
  gp_completed : bool;
  gp_history : list history_row
}.

Record advance_response : Type := mkAdvanceResponse {
  ap_completed : bool;
  ap_step_result : option history_row
}.

Definition history_entry (h : StepResult) : history_row :=
  {| hr_step := Some (StepType_str (step h));
     hr_content := Some (content h);
     hr_context := Some (context h);
     hr_created_at := Some (sr_created_at h) |}.

(** [try: m except HTTPException: raise except Exception as e: 500]; the
    body signals an [HTTPException] by returning it. *)
Definition guard_500 {A} (m : M (http A)) : M (http A) :=
  match m with
  | (t, Ok r) => (t, Ok r)
  | (t, Raise e) => (t, Ok (HTTPException 500 (Err_str e)))
  end.

Definition start_process (w : world) (req : StartProcessRequest) : M (http start_response) :=
  let body : M start_response :=
    inst ← orchestrator.start_process w (req_user_id req) (req_topic req) (req_process_type req);
    cs ← lift (current_step inst);
    mret {| sp_process_id := id inst;
            sp_process_type := process_type inst;
            sp_steps := map StepType_str (steps inst);
            sp_current_step := StepType_str cs |} in
  match body with
  | (t, Ok r) => (t, Ok (Response r))
  | (t, Raise (ValueError v c)) => (t, Ok (HTTPException 400 (Err_str (ValueError v c))))
  | (t, Raise e) => (t, Ok (HTTPException 500 (Err_str e)))
  end.

Definition get_process (w : world) (process_id : string) : M (http get_response) :=
  inst ← orchestrator.get_process w process_id;
  match inst with
  | None => mret (HTTPException 404 (Err "process_not_found"))
  | Some inst =>
      cs ← lift (if negb (is_complete inst)
                 then s ← current_step inst; Ok (Some (StepType_str s))
                 else Ok None);
      mret (Response
              {| gp_process_id := id inst;
                 gp_process_type := ProcessType_str (process_type inst);
                 gp_topic := topic inst;
                 gp_steps := map StepType_str (steps inst);
                 gp_current_index := current_index inst;
                 gp_current_step := cs;
                 gp_completed := is_complete inst;
                 gp_history := map history_entry (history inst) |})
  end.

Definition advance_process (w : world) (process_id : string) (user_input : option string)
  : M (http advance_response) :=
  guard_500 (
    result ← orchestrator.advance w process_id user_input;
    mret match result with
         | orchestrator.Advance_not_found =>
             HTTPException 404 (Err "process_not_found")
         | orchestrator.Advance_completed _ =>
             Response {| ap_completed := true; ap_step_result := None |}
         | orchestrator.Advance_ok completed step_result _ =>
             Response {| ap_completed := completed;
                         ap_step_result := Some (history_entry step_result) |}
         end).

Definition suggest_next_step (w : world) (process_id : string)
    (score : option float) (apply : bool) : M (http orchestrator.suggest_result) :=
  guard_500 (
    result ← orchestrator.suggest_next_step w process_id score apply;
    mret match result with
         | orchestrator.Suggest_not_found =>
             HTTPException 404 (Err "process_not_found")
         | r => Response r
         end).

End education_api.

(** ** Vocabulary for the statements *)

(** A call of [suggest_next_step] returned normally, suggesting [sug] with
    confidence [conf]. *)
Definition returns_suggestion (r : M (ProcessInstance * orchestrator.suggest_result))
    (sug : StepType) (conf : float) : Prop :=
  exists t inst' completed rationale applied,
    r = (t, Ok (inst', orchestrator.Suggest_ok completed (Some (StepType_str sug))
                         rationale conf applied)).

(** A call of [suggest_next_step] by id returned normally, suggesting [sug]
    with confidence [conf]. *)
Definition suggests (r : M orchestrator.suggest_result) (sug : StepType) (conf : float)
  : Prop :=
  exists t completed rationale applied,
    r = (t, Ok (orchestrator.Suggest_ok completed (Some (StepType_str sug))
                  rationale conf applied)).

(** The trace holds no call that writes to the session table. *)
Definition is_write (e : event) : bool :=
  match e with
  | Db_insert _ | Db_update _ _ => true
  | _ => false
  end.
Definition no_write (t : list event) : Prop := Forall (fun e => is_write e = false) t.

(** The data model's invariant on a process. *)
Definition invariant (inst : ProcessInstance) : Prop :=
  0 <= current_index inst <= Z.of_nat (length (steps inst))
  /\ (is_complete inst = true <-> current_index inst = Z.of_nat (length (steps inst)))
  /\ Z.of_nat (length (history inst)) = current_index inst.

(** The instance an [advance] call leaves behind ([instance] itself when the
    call found no session). *)
Definition instance_after (r : orchestrator.advance_result) (instance : ProcessInstance)
  : ProcessInstance :=
  match r with
  | orchestrator.Advance_not_found => instance
  | orchestrator.Advance_completed i => i
  | orchestrator.Advance_ok _ _ i => i
  end.

(** The processes obtained from [start_process] by calls of [advance] and
    [suggest_next_step], each call working on the instance the previous one
    left; the worlds, inputs, scores and flags are arbitrary. *)
Inductive reachable : ProcessInstance -> Prop :=
| reachable_start w user_id_ topic_ process_type_ t inst :
    orchestrator.start_process w user_id_ topic_ process_type_ = (t, Ok inst) ->
    reachable inst
| reachable_advance w process_id user_input t r inst :
    reachable inst ->
    orchestrator.advance_on w process_id inst user_input = (t, Ok r) ->
    reachable (instance_after r inst)
| reachable_suggest w score apply t r inst inst' :
    reachable inst ->
    orchestrator.suggest_next_step_on w inst score apply = (t, Ok (inst', r)) ->
    reachable inst'.

(** Successive [advance] calls on one process, one per given input. *)
Fixpoint advance_seq (w : world) (process_id : string) (inputs : list (option string))
    (instance : ProcessInstance) : M (list orchestrator.advance_result) :=
  match inputs with
  | [] => mret []
  | user_input :: rest =>
      r ← orchestrator.advance_on w process_id instance user_input;
      rs ← advance_seq w process_id rest (instance_after r instance);
      mret (r :: rs)
  end.

(** A history entry the scan stops at: an [evaluate] step whose ["score"]
    is an [int] (or [bool]) or a [float]. *)
Definition numeric (v : pyval) : Prop :=
  (exists b, v = PBool b) \/ (exists z, v = PInt z) \/ (exists f, v = PFloat f).
Definition has_numeric_score (h : StepResult) (v : pyval) : Prop :=
  step h = evaluate /\ context h !! "score" = Some v /\ numeric v.

(** The row that holds the fields of [inst], its enum members by value. *)
Definition value_row (inst : ProcessInstance) : session_row :=
  {| r_id := id inst;
     r_user_id := user_id inst;
     r_topic := topic inst;
     r_process_type := ProcessType_value (process_type inst);
     r_steps := Some (map StepType_value (steps inst));
     r_current_index := Some (current_index inst);
     r_history :=
       Some (map (fun h => {| hr_step := Some (StepType_value (step h));
                              hr_content := Some (content h);
                              hr_context := Some (context h);
                              hr_created_at := Some (sr_created_at h) |})
                 (history inst));
     r_created_at := Some (created_at inst);
     r_updated_at := Some (updated_at inst) |}.

(** ** Sample data *)

(** A store that answers every call with the row it was given, or with
    [row] for a read. *)
Definition world_with (row : list session_row) : world :=
  {| uuid4 := "00000000-0000-4000-8000-000000000001";
     now := "2025-01-01T10:00:00";
     db_insert := fun r => DbData [r];
     db_select := fun _ => DbData row;
     db_update := fun _ r => DbData [r];
     rag_search_documents := fun _ _ => Ok (PList []);
     progress_start_raises := false;
     progress_update_raises := false;
     progress_complete_raises := false |}.

(** A store whose writes raise. *)
Definition world_store_down (row : list session_row) : world :=
  {| uuid4 := "00000000-0000-4000-8000-000000000002";
     now := "2025-01-01T10:00:00";
     db_insert := fun _ => DbRaise (ExternalError "connection refused");
     db_select := fun _ => DbData row;
     db_update := fun _ _ => DbRaise (ExternalError "connection refused");
     rag_search_documents := fun _ _ => Ok (PList []);
     progress_start_raises := false;
     progress_update_raises := false;
     progress_complete_raises := false |}.

Definition sample_exercise_result : StepResult :=
  {| step := exercise;
     content := "Exercício proposto: resolva um problema relacionado a 'loops'.";
     context := <["user_input" := PNone]> (<["citations" := PList []]> ∅);
     sr_created_at := "2025-01-01T09:00:00" |}.

Definition sample_evaluate_result : StepResult :=
  {| step := evaluate;
     content := "Avaliação da resposta: score=0.50.";
     context := <["score" := PFloat 0.5]>
                (<["user_input" := PNone]> (<["citations" := PList []]> ∅));
     sr_created_at := "2025-01-01T09:30:00" |}.

(** An [assessment] about to run its [evaluate] step. *)
Definition sample_at_evaluate : ProcessInstance :=
  {| id := "p1"; user_id := "u1"; topic := "loops"; process_type := assessment;
     steps := [exercise; evaluate; feedback]; current_index := 1;
     history := [sample_exercise_result];
     created_at := "2025-01-01T08:00:00"; updated_at := "2025-01-01T09:00:00" |}.

(** The same process one step later, with the evaluation in its history. *)
Definition sample_evaluated : ProcessInstance :=
  {| id := "p1"; user_id := "u1"; topic := "loops"; process_type := assessment;
     steps := [exercise; evaluate; feedback]; current_index := 2;
     history := [sample_exercise_result; sample_evaluate_result];
     created_at := "2025-01-01T08:00:00"; updated_at := "2025-01-01T09:30:00" |}.

Definition sample_example_result : StepResult :=
  {| step := example;
     content := "Exemplo prático sobre 'loops'.";
     context := <["user_input" := PNone]> (<["citations" := PList []]> ∅);
     sr_created_at := "2025-01-01T09:00:00" |}.

(** A [guided_practice] after its first step; no evaluation in its history. *)
Definition sample_unscored : ProcessInstance :=
  {| id := "p2"; user_id := "u1"; topic := "loops"; process_type := guided_practice;
     steps := [example; exercise; feedback]; current_index := 1;
     history := [sample_example_result];
     created_at := "2025-01-01T08:00:00"; updated_at := "2025-01-01T09:00:00" |}.

Definition sample_evaluate_result_high : StepResult :=
  {| step := evaluate;
     content := "Avaliação da resposta: score=1.00.";
     context := <["score" := PFloat 1.0]>
                (<["user_input" := PStr "for i in range(3): print(i)"]>
                (<["citations" := PList []]> ∅));
     sr_created_at := "2025-01-01T09:10:00" |}.

(** A process evaluated twice (a second exercise and evaluation were
    inserted), about to run [feedback]. *)
Definition sample_rescored : ProcessInstance :=
  {| id := "p4"; user_id := "u1"; topic := "loops"; process_type := assessment;
     steps := [exercise; evaluate; exercise; evaluate; feedback]; current_index := 4;
     history := [sample_exercise_result; sample_evaluate_result_high;
                 sample_exercise_result; sample_evaluate_result];
     created_at := "2025-01-01T08:00:00"; updated_at := "2025-01-01T09:30:00" |}.

(** What [start_process] returns for an [assessment] in [world_with []],
    the result of its first step, and the process after that step. *)
Definition sample_started : ProcessInstance :=
  {| id := "00000000-0000-4000-8000-000000000001"; user_id := "u1"; topic := "loops";
     process_type := assessment;
     steps := [exercise; evaluate; feedback]; current_index := 0; history := [];
     created_at := "2025-01-01T10:00:00"; updated_at := "2025-01-01T10:00:00" |}.

Definition sample_first_result : StepResult :=
  {| step := exercise;
     content := "Exercício proposto: resolva um problema relacionado a 'loops'.";
     context := <["user_input" := PNone]> (<["citations" := PList []]> ∅);
     sr_created_at := "2025-01-01T10:00:00" |}.

Definition sample_advanced : ProcessInstance :=
  set_current_index (history_append sample_started sample_first_result) 1.

(** A complete process, and the row a store may hold for it. *)
Definition sample_complete : ProcessInstance :=
  {| id := "p3"; user_id := "u1"; topic := "loops"; process_type := guided_practice;
     steps := [exercise]; current_index := 1;
     history := [sample_exercise_result];
     created_at := "2025-01-01T08:00:00"; updated_at := "2025-01-01T09:00:00" |}.

Definition sample_complete_row : session_row :=
  {| r_id := "p3"; r_user_id := "u1"; r_topic := "loops";
     r_process_type := "guided_practice";
     r_steps := Some ["exercise"]; r_current_index := Some 1;
     r_history :=
       Some [{| hr_step := Some "exercise";
                hr_content := Some (content sample_exercise_result);
                hr_context := Some (context sample_exercise_result);
                hr_created_at := Some "2025-01-01T09:00:00" |}];
     r_created_at := Some "2025-01-01T08:00:00";
     r_updated_at := Some "2025-01-01T09:00:00" |}.

(** A row a store may hold for [sample_at_evaluate]. *)
Definition sample_at_evaluate_row : session_row :=
  {| r_id := "p1"; r_user_id := "u1"; r_topic := "loops";
     r_process_type := "assessment";
     r_steps := Some ["exercise"; "evaluate"; "feedback"]; r_current_index := Some 1;
     r_history :=
       Some [{| hr_step := Some "exercise";
                hr_content := Some (content sample_exercise_result);
                hr_context := Some (context sample_exercise_result);
                hr_created_at := Some "2025-01-01T09:00:00" |}];
     r_created_at := Some "2025-01-01T08:00:00";
     r_updated_at := Some "2025-01-01T09:00:00" |}.

(** ** session_service.py and education_api.py: listing *)

(** The query [list_sessions] builds on the [education_sessions] table:
    all columns, newest [updated_at] first, with an optional equality filter
    on [user_id] and an optional row limit. *)
Record list_query : Type := mkListQuery {
  q_user_id : option string;
  q_limit : option Z
}.

(** The dict [list_sessions] returns beside its flag. *)
Inductive list_payload : Type :=
| L_sessions (sessions : list ProcessInstance) (count : Z)
| L_error (error : error_text).

(** [if user_id:] and [if limit:] decide what the query holds. *)
Definition list_sessions_query (user_id_ : option string) (limit : Z) : list_query :=
  {| q_user_id := if truthy_str user_id_ then user_id_ else None;
     q_limit := if limit =? 0 then None else Some limit |}.

(** [db_list] is what [.execute()] gives for the query; a response without
    data is one with no row ([resp.data or []]). *)
Definition list_sessions (w : world) (db_list : list_query -> db_response)
    (user_id_ : option string) (limit : Z) : bool * list_payload :=
  match db_list (list_sessions_query user_id_ limit) with
  | DbRaise e => (false, L_error (Err_str e))
  | DbData rows =>
      match res_map (_deserialize_instance w) rows with
      | Ok sessions => (true, L_sessions sessions (Z.of_nat (length sessions)))
      | Raise e => (false, L_error (Err_str e))
      end
  end.

(** An entry of the list endpoint's answer. *)
Record process_summary : Type := mkProcessSummary {
  ps_process_id : string;
  ps_user_id : string;
  ps_topic : string;
  ps_process_type : string;
  ps_current_index : Z;
  ps_completed : bool
}.

Record list_response : Type := mkListResponse {
  lr_count : Z;
  lr_processes : list process_summary
}.

(** The entry of the list endpoint for a session. *)
Definition summary_of (inst : ProcessInstance) : process_summary :=
  {| ps_process_id := id inst;
     ps_user_id := user_id inst;
     ps_topic := topic inst;
     ps_process_type := ProcessType_str (process_type inst);
     ps_current_index := current_index inst;
     ps_completed := is_complete inst |}.

(** [list_processes]: the service is called with its default limit of 100;
    a failure is raised as [HTTPException(500, detail=res)]. *)
Definition list_processes (w : world) (db_list : list_query -> db_response)
    (user_id_ : option string) : education_api.http list_response :=
  let '(ok, res_) := list_sessions w db_list user_id_ 100 in
  if negb ok then
    education_api.HTTPException 500
      match res_ with
      | L_error e => e
      | L_sessions _ _ => Err "sessions"
      end
  else
    (* res.get("sessions", []) *)
    let sessions :=
      match res_ with
      | L_sessions sessions _ => sessions
      | L_error _ => []
      end in
    let processes := map summary_of sessions in
    education_api.Response
      {| lr_count := Z.of_nat (length processes); lr_processes := processes |}.

(** ** Vocabulary for the further statements *)

(** A history entry of a row names a step by its value. *)
Definition names_step (h : history_row) : Prop :=
  exists s, hr_step h = Some (StepType_value s).

(** A row whose steps, history and timestamps are null, its cursor at 0. *)
Definition sample_bare_row : session_row :=
  {| r_id := "p5"; r_user_id := "u1"; r_topic := "loops";
     r_process_type := "assessment";
     r_steps := None; r_current_index := Some 0; r_history := None;
     r_created_at := None; r_updated_at := None |}.

(** Two processes whose cursor is negative: below the step list, and
    within it counted from the end. *)
Definition sample_cursor_below : ProcessInstance :=
  set_current_index sample_started (-4).
Definition sample_cursor_from_end : ProcessInstance :=
  set_current_index sample_started (-1).

(** The result [advance] builds for the step [st] of [inst], as the source
    assembles it: retrieval, content and score, context, timestamp. *)
Definition result_of_step (w : world) (inst : ProcessInstance) (st : StepType)
    (ui : option string) : StepResult :=
  let query := [Lit (topic inst); Lit " — etapa: "; Fmt_step st] in
  let context_chunks :=
    match rag_search_documents w query 5 with
    | Ok chunks => chunks
    | Raise _ => PList []
    end in
  let context0 : gmap string pyval :=
    <["user_input" := orchestrator.pyval_of_str ui]> (<["citations" := context_chunks]> ∅) in
  {| step := st;
     content := fst (orchestrator.step_content (topic inst) st ui);
     context := match snd (orchestrator.step_content (topic inst) st ui) with
                | Some s => <["score" := PFloat s]> context0
                | None => context0
                end;
     sr_created_at := now w |}.

(** The instance [advance] leaves after the step [st]. *)
Definition advanced (w : world) (inst : ProcessInstance) (st : StepType)
    (ui : option string) : ProcessInstance :=
  set_current_index (history_append inst (result_of_step w inst st ui))
    (current_index inst + 1).


Definition world_progress_down (row : list session_row) : world :=
  {| uuid4 := "00000000-0000-4000-8000-000000000001";
     now := "2025-01-01T10:00:00";
     db_insert := fun r => DbData [r];
     db_select := fun _ => DbData row;
     db_update := fun _ r => DbData [r];
     rag_search_documents := fun _ _ => Ok (PList []);
     progress_start_raises := true;
     progress_update_raises := true;
     progress_complete_raises := true |}.

(** The instance left by a sequence of [advance] results, and the step each
    result executed, if any. *)
Definition instance_after_all (rs : list orchestrator.advance_result)
    (inst : ProcessInstance) : ProcessInstance :=
  fold_left (fun i r => instance_after r i) rs inst.

Definition executed_step (r : orchestrator.advance_result) : option StepType :=
  match r with
  | orchestrator.Advance_ok _ result _ => Some (step result)
  | _ => None
  end.

(** The instance a call of [advance] leaves when its read returned [inst]. *)
Definition left_by_advance (w : world) (process_id : string) (inst : ProcessInstance)
    (user_input : option string) : ProcessInstance :=
  match snd (orchestrator.advance_on w process_id inst user_input) with
  | Ok r => instance_after r inst
  | Raise _ => inst
  end.

(** Successive calls of [advance] under one id; [calls] gives, for each
    call, what the collaborators answer during it and its input. *)
Fixpoint advance_calls (process_id : string) (calls : list (world * option string))
  : M (list orchestrator.advance_result) :=
  match calls with
  | [] => mret []
  | (w, user_input) :: rest =>
      r ← orchestrator.advance w process_id user_input;
      rs ← advance_calls process_id rest;
      mret (r :: rs)
  end.

(** The store keeps the session readable from call to call: the first call
    of [calls] reads [inst], each later one reads the instance that the call
    before it left. *)
Fixpoint reads_in_turn (process_id : string) (calls : list (world * option string))
    (inst : ProcessInstance) : Prop :=
  match calls with
  | [] => True
  | (w, user_input) :: rest =>
      session_of_response w (db_select w process_id) "not_found" = (true, P_session inst)
      /\ reads_in_turn process_id rest (left_by_advance w process_id inst user_input)
  end.

(** Three calls on [sample_started], the store holding before each call the
    row of what the call before it left. *)
Definition sample_calls : list (world * option string) :=
  let i1 := advanced (world_with []) sample_started exercise None in
  let i2 := advanced (world_with []) i1 evaluate (Some "x = 1") in
  [(world_with [value_row sample_started], None);
   (world_with [value_row i1], Some "x = 1");
   (world_with [value_row i2], None)].

(** [follows i j]: [j] is obtained from [i] by calls of [advance] and
    [suggest_next_step], each working on the instance the previous one left. *)
Inductive follows (i : ProcessInstance) : ProcessInstance -> Prop :=
| follows_here : follows i i
| follows_advance w process_id user_input t r j :
    follows i j ->
    orchestrator.advance_on w process_id j user_input = (t, Ok r) ->
    follows i (instance_after r j)
| follows_suggest w score apply t r j j' :
    follows i j ->
    orchestrator.suggest_next_step_on w j score apply = (t, Ok (j', r)) ->
    follows i j'.

(** A process whose last evaluation holds an [int] score beyond the range
    of a float. *)
Definition sample_huge_score : ProcessInstance :=
  {| id := "p6"; user_id := "u1"; topic := "loops"; process_type := assessment;
     steps := [exercise; evaluate; feedback]; current_index := 2;
     history :=
       [sample_exercise_result;
        {| step := evaluate;
           content := "Avaliação da resposta: score=1.00.";
           context := <["score" := PInt (2 ^ 1024)]> ∅;
           sr_created_at := "2025-01-01T09:30:00" |}];
     created_at := "2025-01-01T08:00:00"; updated_at := "2025-01-01T09:30:00" |}.

(** A table that answers every listing with the same rows. *)
Definition sample_table (rows : list session_row) : list_query -> db_response :=
  fun _ => DbData rows.

(** * Properties *)

(** ** Order facts on binary64 values *)

(** Swapping the arguments of a comparison reverses its outcome. *)
Lemma SFcompare_antisym (x y : spec_float) :
  SFcompare y x = option_map CompOpp (SFcompare x y).
Proof.
  destruct x as [sx|sx| |sx mx ex], y as [sy|sy| |sy my ey]; simpl;
    try destruct sx; try destruct sy; try reflexivity;
    rewrite (Z.compare_antisym ex ey); destruct (ex ?= ey); simpl;
    rewrite ?CompOpp_involutive, ?Pos.compare_cont_antisym; reflexivity.
Qed.

(** [x <= y] excludes [y < x]. *)
Lemma leb_not_ltb (x y : float) : (x <=? y)%float = true -> (y <? x)%float = false.
Proof.
  rewrite leb_spec, ltb_spec. unfold SFleb, SFltb.
  rewrite (SFcompare_antisym (Prim2SF x) (Prim2SF y)).
  destruct (SFcompare (Prim2SF x) (Prim2SF y)) as [[]|]; simpl; congruence.
Qed.

(** Nothing at or above a positive finite value is below a smaller one of
    the same exponent. *)
Lemma SFleb_SFltb_finite (hi lo : positive) (ex : Z) (x : spec_float) :
  (lo < hi)%positive ->
  SFleb (S754_finite false hi ex) x = true ->
  SFltb x (S754_finite false lo ex) = false.
Proof.
  intros Hlt. unfold SFleb, SFltb.
  destruct x as [sg|sg| |sg m e]; try destruct sg; simpl;
    try discriminate; try reflexivity.
  rewrite (Z.compare_antisym e ex).
  destruct (Z.compare_spec e ex); simpl; try discriminate; try reflexivity.
  fold (Pos.compare hi m). fold (Pos.compare m lo).
  destruct (Pos.compare_spec hi m), (Pos.compare_spec m lo);
    try discriminate; try reflexivity; lia.
Qed.

Lemma Prim2SF_0_85 : Prim2SF 0.85 = S754_finite false 7656119366529843 (-53).
Proof. vm_compute. reflexivity. Qed.
Lemma Prim2SF_0_6 : Prim2SF 0.6 = S754_finite false 5404319552844595 (-53).
Proof. vm_compute. reflexivity. Qed.

(** A score at or above 0.85 is not below 0.6. *)
Lemma high_score_not_low (s : float) :
  (0.85 <=? s)%float = true -> (s <? 0.6)%float = false.
Proof.
  rewrite leb_spec, ltb_spec, Prim2SF_0_85, Prim2SF_0_6.
  apply SFleb_SFltb_finite. vm_compute. reflexivity.
Qed.

(** ** Python lists *)

(** Indexing within the bounds succeeds. *)
Lemma py_getitem_in_range {A} (l : list A) (i : Z) :
  0 <= i < Z.of_nat (length l) ->
  exists x, py_getitem l i = Ok x /\ nth_error l (Z.to_nat i) = Some x.
Proof.
  intros [H0 H1]. unfold py_getitem. cbv zeta.
  assert (E0 : (i <? 0) = false) by (apply Z.ltb_ge; lia).
  assert (E1 : (Z.of_nat (length l) <=? i) = false) by (apply Z.leb_gt; lia).
  rewrite !E0, E1. simpl. destruct (nth_error l (Z.to_nat i)) as [x|] eqn:E; [eauto|].
  apply nth_error_None in E. lia.
Qed.

(** With a bound that is not negative, the two slices are [firstn] and
    [skipn]. *)
Lemma py_slice_nonneg {A} (l : list A) (i : Z) :
  0 <= i ->
  py_slice_to l i = firstn (Z.to_nat i) l /\ py_slice_from l i = skipn (Z.to_nat i) l.
Proof.
  intros H. unfold py_slice_to, py_slice_from, py_slice_bound.
  replace (i <? 0) with false by (symmetry; apply Z.ltb_ge; lia).
  destruct (Z.le_gt_cases i (Z.of_nat (length l))) as [Hle|Hgt].
  - replace (Z.min (Z.max i 0) (Z.of_nat (length l))) with i by lia. auto.
  - replace (Z.min (Z.max i 0) (Z.of_nat (length l))) with (Z.of_nat (length l)) by lia.
    rewrite Nat2Z.id, firstn_all, skipn_all.
    rewrite firstn_all2, skipn_all2 by lia. auto.
Qed.

(** Inserting [x] at position [n] of [l]: what each position then holds. *)
Lemma insert_at_lookup {A} (l : list A) (n : nat) (x : A) :
  (n <= length l)%nat ->
  let l' := (take n l ++ x :: drop n l)%list in
  length l' = S (length l)
  /\ (forall i, (i < n)%nat -> l' !! i = l !! i)
  /\ l' !! n = Some x
  /\ (forall i, (n <= i)%nat -> l' !! S i = l !! i).
Proof.
  intros Hn l'. subst l'. pose proof (length_take_le l n Hn) as Ht. repeat split.
  - rewrite length_app, Ht. simpl. rewrite length_drop. lia.
  - intros i Hi. rewrite lookup_app_l by lia. now apply lookup_take_lt.
  - now apply list_lookup_middle.
  - intros i Hi. rewrite lookup_app_r by lia. rewrite Ht.
    replace (S i - n)%nat with (S (i - n)) by lia. simpl.
    rewrite lookup_drop. f_equal. lia.
Qed.

Lemma existsb_explain (l : list StepType) :
  existsb (StepType_eqb explain) l = true <-> explain ∈ l.
Proof.
  rewrite existsb_exists. split.
  - intros (x & Hx & E). apply list_elem_of_In. now destruct x.
  - intros H. exists explain. split; [now apply list_elem_of_In|reflexivity].
Qed.

(** ** Workflow catalog *)

(** A key outside the catalog gets the default list. *)
Lemma get_workflow_default (k : string) :
  k <> "fundamental_explanation" -> k <> "guided_practice" -> k <> "assessment" ->
  get_workflow k = Ok [explain; example; exercise; evaluate; feedback].
Proof.
  intros H1 H2 H3. unfold get_workflow, DEFAULT_WORKFLOWS; simpl.
  unfold dict_getitem. rewrite lookup_insert_eq. simpl.
  rewrite !lookup_insert_ne by congruence. rewrite lookup_empty. reflexivity.
Qed.

(** No list of the catalog is empty. *)
Lemma get_workflow_nonempty (k : string) (l : list StepType) :
  get_workflow k = Ok l -> exists s rest, l = s :: rest.
Proof.
  destruct (decide (k = "fundamental_explanation")) as [->|H1];
    [intros [= <-]; eauto|].
  destruct (decide (k = "guided_practice")) as [->|H2]; [intros [= <-]; eauto|].
  destruct (decide (k = "assessment")) as [->|H3]; [intros [= <-]; eauto|].
  rewrite get_workflow_default by assumption. intros [= <-]. eauto.
Qed.

(** C7: the catalog lookup returns the documented list for each of the three
    process types, and the [fundamental_explanation] list, without raising,
    for every other key; so it returns a list for every key. *)
Theorem C7_get_workflow_total :
  get_workflow (ProcessType_value fundamental_explanation)
    = Ok [explain; example; exercise; evaluate; feedback]
  /\ get_workflow (ProcessType_value guided_practice) = Ok [example; exercise; feedback]
  /\ get_workflow (ProcessType_value assessment) = Ok [exercise; evaluate; feedback]
  /\ (forall k : string,
        k <> ProcessType_value fundamental_explanation ->
        k <> ProcessType_value guided_practice ->
        k <> ProcessType_value assessment ->
        get_workflow k = Ok [explain; example; exercise; evaluate; feedback])
  /\ (forall k : string, exists l, get_workflow k = Ok l).
Proof.
  repeat split; try reflexivity.
  - apply get_workflow_default.
  - intros k.
    destruct (decide (k = "fundamental_explanation")) as [->|H1]; [eexists; reflexivity|].
    destruct (decide (k = "guided_practice")) as [->|H2]; [eexists; reflexivity|].
    destruct (decide (k = "assessment")) as [->|H3]; [eexists; reflexivity|].
    eexists. now apply get_workflow_default.
Qed.

Lemma C7_get_workflow_total_witness :
  get_workflow "quiz" = Ok [explain; example; exercise; evaluate; feedback].
Proof.
  apply (proj1 (proj2 (proj2 (proj2 C7_get_workflow_total))) "quiz"); simpl; congruence.
Defined.

(** ** The session service *)

Lemma create_session_eq (w : world) (i : ProcessInstance) :
  create_session w i
  = ([Db_insert (_serialize_instance w i)],
     Ok (session_of_response w (db_insert w (_serialize_instance w i)) "failed_to_insert")).
Proof. reflexivity. Qed.

Lemma get_session_eq (w : world) (pid : string) :
  get_session w pid
  = ([Db_select pid], Ok (session_of_response w (db_select w pid) "not_found")).
Proof. reflexivity. Qed.

Lemma save_session_eq (w : world) (i : ProcessInstance) :
  save_session w i
  = ([Db_update (id i) (_serialize_instance w i)],
     Ok (session_of_response w (db_update w (id i) (_serialize_instance w i)) "update_failed")).
Proof. reflexivity. Qed.

(** A row written by [_serialize_instance] is not read back: the enum
    fields are written with [str], which gives [ProcessType.x] and
    [StepType.x], and read with the enum constructors, which look for the
    values [x]. *)
Lemma written_row_not_readable (w w' : world) (inst : ProcessInstance) :
  exists v c, _deserialize_instance w' (_serialize_instance w inst) = Raise (ValueError v c).
Proof.
  unfold _deserialize_instance, _serialize_instance. simpl.
  destruct (history inst) as [|h hs]; simpl.
  - destruct (steps inst) as [|s ss]; simpl.
    + destruct (process_type inst); simpl; eauto.
    + destruct s; simpl; eauto.
  - destruct (step h); simpl; eauto.
Qed.

(** ** The orchestrator's operations, case by case *)

(** What [start_process] returns when it returns. *)
Lemma start_process_ok (w : world) (u tp p : string) (t : list event)
    (inst : ProcessInstance) :
  orchestrator.start_process w u tp p = (t, Ok inst) ->
  exists ptype s rest,
    ProcessType_of_value p = Ok ptype
    /\ get_workflow (ProcessType_value ptype) = Ok (s :: rest)
    /\ inst = {| id := uuid4 w; user_id := u; topic := tp; process_type := ptype;
                 steps := s :: rest; current_index := 0; history := [];
                 created_at := now w; updated_at := now w |}.
Proof.
  unfold orchestrator.start_process.
  destruct (ProcessType_of_value p) as [ptype|e]; [|discriminate].
  cbn -[_serialize_instance session_of_response StepType_str get_workflow py_getitem].
  destruct (get_workflow (ProcessType_value ptype)) as [l|e] eqn:El; [|discriminate].
  destruct (get_workflow_nonempty _ _ El) as (s & rest & ->).
  cbn -[_serialize_instance session_of_response StepType_str].
  intros [= _ <-]. exists ptype, s, rest.
  split; [reflexivity|]. split; [exact El|reflexivity].
Qed.

(** On a complete process [advance] does nothing. *)
Lemma advance_on_complete (w : world) (pid : string) (inst : ProcessInstance)
    (ui : option string) :
  is_complete inst = true ->
  orchestrator.advance_on w pid inst ui = ([], Ok (orchestrator.Advance_completed inst)).
Proof. intros Hc. unfold orchestrator.advance_on. now rewrite Hc. Qed.

(** What [advance] builds for the step [st]. *)
Lemma advance_on_step (w : world) (pid : string) (inst : ProcessInstance)
    (ui : option string) (st : StepType) :
  is_complete inst = false -> current_step inst = Ok st ->
  exists t result,
    let inst' := set_current_index (history_append inst result) (current_index inst + 1) in
    orchestrator.advance_on w pid inst ui
    = (t, Ok (orchestrator.Advance_ok (is_complete inst') result inst'))
    /\ step result = st
    /\ context result !! "score"
       = option_map PFloat (snd (orchestrator.step_content (topic inst) st ui))
    /\ Exists (fun e => e = Db_update (id inst) (_serialize_instance w inst')) t.
Proof.
  intros Hc Hs. unfold orchestrator.advance_on. rewrite Hc, Hs.
  destruct (orchestrator.step_content (topic inst) st ui) as [c sc] eqn:E.
  cbn -[is_complete _serialize_instance session_of_response insert].
  rewrite E.
  cbn -[is_complete _serialize_instance session_of_response insert].
  eexists _, _. split; [reflexivity|]. split; [reflexivity|]. split.
  - cbn -[insert]. destruct sc as [f|]; cbn -[insert].
    + now rewrite lookup_insert_eq.
    + rewrite !lookup_insert_ne by discriminate. now rewrite lookup_empty.
  - apply Exists_cons_tl, Exists_cons_hd. reflexivity.
Qed.

(** With a cursor that is not negative, [advance] returns. *)
Lemma advance_on_returns (w : world) (pid : string) (inst : ProcessInstance)
    (ui : option string) :
  0 <= current_index inst ->
  exists t r, orchestrator.advance_on w pid inst ui = (t, Ok r).
Proof.
  intros H0. destruct (is_complete inst) eqn:Hc.
  - rewrite advance_on_complete by exact Hc. eauto.
  - pose proof Hc as Hc'. unfold is_complete in Hc'. apply Z.leb_gt in Hc'.
    destruct (py_getitem_in_range (steps inst) (current_index inst)) as (st & Hs & _);
      [lia|].
    destruct (advance_on_step w pid inst ui st Hc Hs) as (t & res_ & Hr & _).
    cbv zeta in Hr. rewrite Hr. eauto.
Qed.

(** With a planned next step, the decision always names a step. *)
Lemma decide_suggestion_some (l : list StepType) (nxt : StepType) (ls : option float) :
  exists sug rationale conf,
    orchestrator.decide_suggestion l (Some nxt) ls = (Some sug, rationale, conf).
Proof.
  unfold orchestrator.decide_suggestion. destruct ls as [s|]; [|eauto].
  destruct (s <? 0.6)%float; [eauto|]. destruct (s <? 0.85)%float; eauto.
Qed.

Lemma suggestion_str_some (s : StepType) :
  orchestrator.suggestion_str (Some s) = Some (StepType_str s).
Proof. now destruct s. Qed.

(** What [suggest_next_step] returns, and the instance it leaves, on a
    process that is not complete. *)
Lemma suggest_on_cases (w : world) (inst : ProcessInstance) (score : option float)
    (apply : bool) (ls : option float) :
  is_complete inst = false -> 0 <= current_index inst ->
  orchestrator.last_known_score inst score = Ok ls ->
  exists nxt sug rationale conf,
    py_getitem (steps inst) (current_index inst) = Ok nxt
    /\ orchestrator.decide_suggestion (steps inst) (Some nxt) ls = (Some sug, rationale, conf)
    /\ let inst' :=
         set_steps inst
           (py_slice_to (steps inst) (current_index inst) ++ [sug]
            ++ py_slice_from (steps inst) (current_index inst))%list in
       orchestrator.suggest_next_step_on w inst score apply
       = if apply
         then ([Db_update (id inst) (_serialize_instance w inst')],
               Ok (inst', orchestrator.Suggest_ok (is_complete inst')
                            (Some (StepType_str sug)) rationale conf true))
         else ([], Ok (inst, orchestrator.Suggest_ok (is_complete inst)
                               (Some (StepType_str sug)) rationale conf false)).
Proof.
  intros Hc H0 Hs. pose proof Hc as Hc'. unfold is_complete in Hc'. apply Z.leb_gt in Hc'.
  destruct (py_getitem_in_range (steps inst) (current_index inst)) as (nxt & Hn & _); [lia|].
  destruct (decide_suggestion_some (steps inst) nxt ls) as (sug & rat & conf & Hd).
  exists nxt, sug, rat, conf. split; [exact Hn|]. split; [exact Hd|].
  unfold orchestrator.suggest_next_step_on. rewrite Hc, Hs, Hn.
  replace (current_index inst <? _) with true by (symmetry; apply Z.ltb_lt; lia).
  cbn -[is_complete _serialize_instance session_of_response orchestrator.decide_suggestion
        orchestrator.suggestion_str].
  rewrite Hd.
  destruct apply;
    cbn -[is_complete _serialize_instance session_of_response orchestrator.suggestion_str];
    rewrite suggestion_str_some, ?Hc; reflexivity.
Qed.

(** Without [apply], the call makes no call to a collaborator and leaves
    the instance as it was. *)
Lemma suggest_on_read_only (w : world) (inst : ProcessInstance) (score : option float) :
  exists r, orchestrator.suggest_next_step_on w inst score false = ([], r)
            /\ forall inst' res_, r = Ok (inst', res_) -> inst' = inst.
Proof.
  unfold orchestrator.suggest_next_step_on.
  destruct (is_complete inst) eqn:Hc.
  { eexists. split; [reflexivity|]. intros ? ? [= <- _]. reflexivity. }
  destruct (orchestrator.last_known_score inst score) as [ls|e];
    [|eexists; split; [reflexivity|discriminate]].
  destruct (current_index inst <? Z.of_nat (length (steps inst)));
    [destruct (py_getitem (steps inst) (current_index inst)) as [nxt|e];
       [|eexists; split; [reflexivity|discriminate]]|];
    cbn -[is_complete orchestrator.decide_suggestion orchestrator.suggestion_str].
  - destruct (orchestrator.decide_suggestion _ _ _) as [[[s|] rat] conf];
      cbn -[is_complete orchestrator.suggestion_str];
      (eexists; split; [reflexivity|]; intros ? ? [= <- _]; reflexivity).
  - destruct (orchestrator.decide_suggestion _ _ _) as [[[s|] rat] conf];
      cbn -[is_complete orchestrator.suggestion_str];
      (eexists; split; [reflexivity|]; intros ? ? [= <- _]; reflexivity).
Qed.

(** The flag of a service answer is true exactly when it holds a session. *)
Lemma session_of_response_flag (w : world) (resp : db_response) (empty : string) :
  (exists inst, session_of_response w resp empty = (true, P_session inst))
  \/ (exists e, session_of_response w resp empty = (false, P_error e)).
Proof.
  unfold session_of_response. destruct resp as [e|[|row rest]]; eauto.
  destruct (_deserialize_instance w row); eauto.
Qed.

(** [advance] and [suggest_next_step] in terms of the answer to the read. *)
Lemma advance_eq (w : world) (pid : string) (ui : option string) :
  orchestrator.advance w pid ui
  = match session_of_response w (db_select w pid) "not_found" with
    | (true, P_session inst) =>
        (Db_select pid :: fst (orchestrator.advance_on w pid inst ui),
         snd (orchestrator.advance_on w pid inst ui))
    | (true, P_error _) => ([Db_select pid], Raise (KeyError "session"))
    | (false, _) => ([Db_select pid], Ok orchestrator.Advance_not_found)
    end.
Proof.
  unfold orchestrator.advance. rewrite get_session_eq.
  destruct (session_of_response w (db_select w pid) "not_found") as [[] [inst|e]];
    try reflexivity.
  cbn -[orchestrator.advance_on].
  destruct (orchestrator.advance_on w pid inst ui) as [t [r|e]]; reflexivity.
Qed.

Lemma suggest_eq (w : world) (pid : string) (score : option float) (apply : bool) :
  orchestrator.suggest_next_step w pid score apply
  = match session_of_response w (db_select w pid) "not_found" with
    | (true, P_session inst) =>
        (Db_select pid :: fst (orchestrator.suggest_next_step_on w inst score apply),
         match snd (orchestrator.suggest_next_step_on w inst score apply) with
         | Ok (_, r) => Ok r
         | Raise e => Raise e
         end)
    | (true, P_error _) => ([Db_select pid], Raise (KeyError "session"))
    | (false, _) => ([Db_select pid], Ok orchestrator.Suggest_not_found)
    end.
Proof.
  unfold orchestrator.suggest_next_step. rewrite get_session_eq.
  destruct (session_of_response w (db_select w pid) "not_found") as [[] [inst|e]];
    try reflexivity.
  cbn -[orchestrator.suggest_next_step_on].
  destruct (orchestrator.suggest_next_step_on w inst score apply) as [t [[i r]|e]];
    cbn; rewrite ?app_nil_r; reflexivity.
Qed.

(** A call by id whose read returns [inst] returns what the body returns on
    [inst], after the read. *)
Lemma suggest_by_id_returns (w : world) (pid : string) (inst i : ProcessInstance)
    (score : option float) (apply : bool) (t : list event) (r : orchestrator.suggest_result) :
  session_of_response w (db_select w pid) "not_found" = (true, P_session inst) ->
  orchestrator.suggest_next_step_on w inst score apply = (t, Ok (i, r)) ->
  orchestrator.suggest_next_step w pid score apply = (Db_select pid :: t, Ok r).
Proof. intros Hget Hon. rewrite suggest_eq, Hget, Hon. reflexivity. Qed.

Lemma suggests_by_id (w : world) (pid : string) (inst : ProcessInstance)
    (score : option float) (apply : bool) (sug : StepType) (conf : float) :
  session_of_response w (db_select w pid) "not_found" = (true, P_session inst) ->
  returns_suggestion (orchestrator.suggest_next_step_on w inst score apply) sug conf ->
  suggests (orchestrator.suggest_next_step w pid score apply) sug conf.
Proof.
  intros Hget (t & i & c & rat & a & Hr). exists (Db_select pid :: t), c, rat, a.
  exact (suggest_by_id_returns _ _ _ _ _ _ _ _ Hget Hr).
Qed.

(** ** The suggestion policy *)

(** The table of suggestions, for the body of [suggest_next_step]. *)
Lemma suggestion_table_on (w : world) (inst : ProcessInstance) (score : option float)
    (apply : bool) (last_score : option float) :
  is_complete inst = false -> 0 <= current_index inst ->
  orchestrator.last_known_score inst score = Ok last_score ->
  let r := orchestrator.suggest_next_step_on w inst score apply in
  match last_score with
  | Some s =>
      ((s <? 0.6)%float = true -> explain ∈ steps inst -> returns_suggestion r explain 0.8)
      /\ ((s <? 0.6)%float = true -> explain ∉ steps inst -> returns_suggestion r example 0.8)
      /\ ((0.6 <=? s)%float = true -> (s <? 0.85)%float = true ->
          returns_suggestion r exercise 0.7)
      /\ ((0.85 <=? s)%float = true -> returns_suggestion r feedback 0.75)
  | None =>
      exists nxt, py_getitem (steps inst) (current_index inst) = Ok nxt
                  /\ returns_suggestion r nxt 0.6
  end.
Proof.
  intros Hc H0 Hs r.
  destruct (suggest_on_cases w inst score apply last_score Hc H0 Hs)
    as (nxt & sug & rat & conf & Hn & Hd & Hr).
  cbv zeta in Hr. subst r. unfold returns_suggestion. rewrite Hr. clear Hr.
  unfold orchestrator.decide_suggestion in Hd.
  destruct last_score as [s|].
  - repeat split.
    + intros Hlt Hin. rewrite Hlt in Hd. apply existsb_explain in Hin.
      rewrite Hin in Hd. injection Hd as <- <- <-. destruct apply; eauto 10.
    + intros Hlt Hin. rewrite Hlt in Hd.
      destruct (existsb (StepType_eqb explain) (steps inst)) eqn:E.
      * apply existsb_explain in E. contradiction.
      * injection Hd as <- <- <-. destruct apply; eauto 10.
    + intros Hle Hlt. rewrite (leb_not_ltb _ _ Hle), Hlt in Hd.
      injection Hd as <- <- <-. destruct apply; eauto 10.
    + intros Hle. rewrite (high_score_not_low _ Hle), (leb_not_ltb _ _ Hle) in Hd.
      injection Hd as <- <- <-. destruct apply; eauto 10.
  - exists nxt. split; [exact Hn|]. injection Hd as <- <- <-. destruct apply; eauto 10.
Qed.

(** C1: on a process that is not complete (cursor not negative, as the data
    model requires), with effective last score [s]: below 0.6 the suggestion
    is [explain] when the steps hold it and [example] otherwise, confidence
    0.8; from 0.6 and below 0.85 it is [exercise], confidence 0.7; from 0.85
    it is [feedback], confidence 0.75; with no effective score it is the
    planned step [steps[current_index]], confidence 0.6. This is what the
    body of [suggest_next_step] returns on the process, and what
    [suggest_next_step] returns when called with an id under which the
    store holds the process. *)
Theorem C1_suggestion_table (w : world) (inst : ProcessInstance) (score : option float)
    (apply : bool) (last_score : option float) :
  is_complete inst = false -> 0 <= current_index inst ->
  orchestrator.last_known_score inst score = Ok last_score ->
  let r := orchestrator.suggest_next_step_on w inst score apply in
  match last_score with
  | Some s =>
      ((s <? 0.6)%float = true -> explain ∈ steps inst -> returns_suggestion r explain 0.8)
      /\ ((s <? 0.6)%float = true -> explain ∉ steps inst -> returns_suggestion r example 0.8)
      /\ ((0.6 <=? s)%float = true -> (s <? 0.85)%float = true ->
          returns_suggestion r exercise 0.7)
      /\ ((0.85 <=? s)%float = true -> returns_suggestion r feedback 0.75)
  | None =>
      exists nxt, py_getitem (steps inst) (current_index inst) = Ok nxt
                  /\ returns_suggestion r nxt 0.6
  end
  /\ forall process_id,
       session_of_response w (db_select w process_id) "not_found" = (true, P_session inst) ->
       let q := orchestrator.suggest_next_step w process_id score apply in
       match last_score with
       | Some s =>
           ((s <? 0.6)%float = true -> explain ∈ steps inst -> suggests q explain 0.8)
           /\ ((s <? 0.6)%float = true -> explain ∉ steps inst -> suggests q example 0.8)
           /\ ((0.6 <=? s)%float = true -> (s <? 0.85)%float = true ->
               suggests q exercise 0.7)
           /\ ((0.85 <=? s)%float = true -> suggests q feedback 0.75)
       | None =>
           exists nxt, py_getitem (steps inst) (current_index inst) = Ok nxt
                       /\ suggests q nxt 0.6
       end.
Proof.
  intros Hc H0 Hs r.
  pose proof (suggestion_table_on w inst score apply last_score Hc H0 Hs) as Hon.
  cbv zeta in Hon. fold r in Hon. split; [exact Hon|].
  intros pid Hget q.
  assert (Hq : forall sug conf, returns_suggestion r sug conf -> suggests q sug conf)
    by (intros sug conf; apply suggests_by_id; exact Hget).
  destruct last_score as [s|].
  - destruct Hon as (H1 & H2 & H3 & H4). repeat split; intros; apply Hq; auto.
  - destruct Hon as (nxt & Hn & Hr). exists nxt. split; [exact Hn|]. now apply Hq.
Qed.

Lemma C1_suggestion_table_witness :
  returns_suggestion
    (orchestrator.suggest_next_step_on (world_with [value_row sample_evaluated])
       sample_evaluated None false)
    example 0.8
  /\ suggests
       (orchestrator.suggest_next_step (world_with [value_row sample_evaluated]) "p1"
          None false)
       example 0.8.
Proof.
  assert (Hin : explain ∉ steps sample_evaluated).
  { intros H. repeat (apply elem_of_cons in H as [H|H]; [discriminate H|]).
    now apply elem_of_nil in H. }
  pose proof (C1_suggestion_table (world_with [value_row sample_evaluated]) sample_evaluated
                None false (Some 0.5%float) eq_refl ltac:(simpl; lia) eq_refl) as [Hon Hid].
  split.
  - exact (proj1 (proj2 Hon) eq_refl Hin).
  - exact (proj1 (proj2 (Hid "p1" eq_refl)) eq_refl Hin).
Defined.

(** The thresholds at the scores 0.59, 0.6, 0.84 and 0.85. *)
Example suggestion_thresholds :
  let d s := orchestrator.decide_suggestion [explain; evaluate] (Some evaluate) (Some s) in
  (fst (fst (d 0.59%float)), snd (d 0.59%float)) = (Some explain, 0.8%float)
  /\ (fst (fst (d 0.6%float)), snd (d 0.6%float)) = (Some exercise, 0.7%float)
  /\ (fst (fst (d 0.84%float)), snd (d 0.84%float)) = (Some exercise, 0.7%float)
  /\ (fst (fst (d 0.85%float)), snd (d 0.85%float)) = (Some feedback, 0.75%float).
Proof. repeat split. Qed.

(** ** The last known score *)

Lemma stops_scan_true (h : StepResult) (v : pyval) :
  has_numeric_score h v ->
  orchestrator.stops_scan h = true /\ dict_getitem (context h) "score" = Ok v.
Proof.
  intros (Hs & Hv & Hn). unfold orchestrator.stops_scan, dict_getitem. rewrite Hs, Hv.
  destruct Hn as [[b ->]|[[z ->]|[f ->]]]; auto.
Qed.

Lemma stops_scan_false (h : StepResult) :
  (forall v, ~ has_numeric_score h v) -> orchestrator.stops_scan h = false.
Proof.
  intros H. unfold orchestrator.stops_scan.
  destruct (StepType_eqb (step h) evaluate) eqn:Es; [|reflexivity].
  destruct (context h !! "score") as [v|] eqn:Ev; [|reflexivity].
  assert (Hstep : step h = evaluate) by (now destruct (step h)).
  destruct v; try reflexivity; exfalso;
    (eapply H; split; [exact Hstep|split; [exact Ev|]]); unfold numeric; eauto.
Qed.

Lemma scan_last_score_skip (l1 l2 : list StepResult) :
  (forall h, h ∈ l1 -> orchestrator.stops_scan h = false) ->
  orchestrator.scan_last_score (l1 ++ l2) = orchestrator.scan_last_score l2.
Proof.
  induction l1 as [|h l1 IH]; intros H; [reflexivity|].
  simpl. rewrite (H h) by (apply elem_of_cons; now left).
  apply IH. intros h' Hh'. apply H. apply elem_of_cons. now right.
Qed.

Lemma scan_last_score_none (l : list StepResult) :
  (forall h, h ∈ l -> orchestrator.stops_scan h = false) ->
  orchestrator.scan_last_score l = Ok None.
Proof.
  intros H. rewrite <- (app_nil_r l). now rewrite scan_last_score_skip.
Qed.

Lemma float_of_int_raise (z : Z) (e : exn) : float_of_int z = Raise e -> e = OverflowError.
Proof.
  unfold float_of_int. destruct (binary_normalize prec emax z 0 false);
    intros H; try discriminate. now injection H as <-.
Qed.

Lemma scan_last_score_raise (l : list StepResult) (e : exn) :
  orchestrator.scan_last_score l = Raise e -> e = OverflowError.
Proof.
  induction l as [|h l IH]; [discriminate|]. simpl.
  unfold orchestrator.stops_scan, dict_getitem.
  destruct (StepType_eqb (step h) evaluate); simpl; [|exact IH].
  destruct (context h !! "score") as [v|]; simpl; [|exact IH].
  destruct v as [|b|z|f| | |]; simpl; try exact IH.
  - destruct (float_of_int (if b then 1 else 0)) eqn:E; simpl; [discriminate|].
    intros [= <-]. exact (float_of_int_raise _ _ E).
  - destruct (float_of_int z) eqn:E; simpl; [discriminate|].
    intros [= <-]. exact (float_of_int_raise _ _ E).
  - discriminate.
Qed.

(** C8: on a process that is not complete (cursor not negative), called
    without a score: when the history splits into older entries, an
    [evaluate] entry with numeric score [v] (readable as the float [f]), and
    newer entries none of which is an [evaluate] entry with a numeric score,
    the call behaves as if [f] had been supplied: the body of
    [suggest_next_step] returns what it returns for the score [f], and
    [suggest_next_step], called with an id under which the store holds the
    process, returns what the policy decides for the score [f]. When no
    entry of the history is an [evaluate] entry with a numeric score, both
    suggest the next planned step with confidence 0.6. *)
Theorem C8_last_score_from_history (w : world) (inst : ProcessInstance) (apply : bool)
    (process_id : string) :
  is_complete inst = false -> 0 <= current_index inst ->
  (forall older h newer v f,
      history inst = (older ++ h :: newer)%list ->
      has_numeric_score h v ->
      (forall h' v', h' ∈ newer -> ~ has_numeric_score h' v') ->
      py_float v = Ok f ->
      orchestrator.last_known_score inst None = Ok (Some f)
      /\ orchestrator.suggest_next_step_on w inst None apply
         = orchestrator.suggest_next_step_on w inst (Some f) apply
      /\ (session_of_response w (db_select w process_id) "not_found"
          = (true, P_session inst) ->
          orchestrator.suggest_next_step w process_id None apply
          = orchestrator.suggest_next_step w process_id (Some f) apply
          /\ exists nxt t completed applied,
               py_getitem (steps inst) (current_index inst) = Ok nxt
               /\ let '(suggestion, rationale, confidence) :=
                    orchestrator.decide_suggestion (steps inst) (Some nxt) (Some f) in
                  orchestrator.suggest_next_step w process_id None apply
                  = (t, Ok (orchestrator.Suggest_ok completed
                              (orchestrator.suggestion_str suggestion)
                              rationale confidence applied))))
  /\ ((forall h v, h ∈ history inst -> ~ has_numeric_score h v) ->
      orchestrator.last_known_score inst None = Ok None
      /\ exists nxt,
           py_getitem (steps inst) (current_index inst) = Ok nxt
           /\ returns_suggestion (orchestrator.suggest_next_step_on w inst None apply)
                nxt 0.6
           /\ (session_of_response w (db_select w process_id) "not_found"
               = (true, P_session inst) ->
               suggests (orchestrator.suggest_next_step w process_id None apply) nxt 0.6)).
Proof.
  intros Hc H0. split.
  - intros older h newer v f Hh Hv Hnewer Hf.
    assert (Hs : orchestrator.last_known_score inst None = Ok (Some f)).
    { unfold orchestrator.last_known_score. rewrite Hh, rev_app_distr. simpl.
      rewrite <- app_assoc. rewrite scan_last_score_skip.
      - simpl. destruct (stops_scan_true h v Hv) as [-> ->]. simpl. now rewrite Hf.
      - intros h' Hh'. apply stops_scan_false. intros v'. apply Hnewer.
        apply list_elem_of_In. apply in_rev. now apply list_elem_of_In. }
    assert (Heq : orchestrator.suggest_next_step_on w inst None apply
                  = orchestrator.suggest_next_step_on w inst (Some f) apply).
    { unfold orchestrator.suggest_next_step_on. rewrite Hs. reflexivity. }
    split; [exact Hs|]. split; [exact Heq|].
    intros Hget. split.
    { rewrite !suggest_eq, Hget, Heq. reflexivity. }
    destruct (suggest_on_cases w inst None apply (Some f) Hc H0 Hs)
      as (nxt & sug & rat & conf & Hn & Hd & Hr).
    cbv zeta in Hr.
    destruct apply; eexists nxt, _, _, _; (split; [exact Hn|]);
      rewrite Hd, suggestion_str_some;
      exact (suggest_by_id_returns _ _ _ _ _ _ _ _ Hget Hr).
  - intros Hnone.
    assert (Hs : orchestrator.last_known_score inst None = Ok None).
    { unfold orchestrator.last_known_score. apply scan_last_score_none.
      intros h Hh. apply stops_scan_false. intros v. apply Hnone.
      apply list_elem_of_In. apply in_rev. now apply list_elem_of_In. }
    split; [exact Hs|].
    destruct (suggest_on_cases w inst None apply None Hc H0 Hs)
      as (nxt & sug & rat & conf & Hn & Hd & Hr).
    exists nxt. split; [exact Hn|]. cbv zeta in Hr.
    simpl in Hd. injection Hd as <- <- <-.
    assert (Hon : returns_suggestion (orchestrator.suggest_next_step_on w inst None apply)
                    nxt 0.6).
    { unfold returns_suggestion. rewrite Hr. destruct apply; eauto 10. }
    split; [exact Hon|]. intros Hget. exact (suggests_by_id _ _ _ _ _ _ _ Hget Hon).
Qed.

Lemma C8_last_score_from_history_witness :
  orchestrator.last_known_score sample_rescored None = Ok (Some 0.5%float)
  /\ orchestrator.suggest_next_step (world_with [value_row sample_rescored]) "p4" None false
     = orchestrator.suggest_next_step (world_with [value_row sample_rescored]) "p4"
         (Some 0.5%float) false
  /\ exists nxt t completed applied,
       py_getitem (steps sample_rescored) (current_index sample_rescored) = Ok nxt
       /\ let '(suggestion, rationale, confidence) :=
            orchestrator.decide_suggestion (steps sample_rescored) (Some nxt)
              (Some 0.5%float) in
          orchestrator.suggest_next_step (world_with [value_row sample_rescored]) "p4"
            None false
          = (t, Ok (orchestrator.Suggest_ok completed
                      (orchestrator.suggestion_str suggestion)
                      rationale confidence applied)).
Proof.
  assert (Hv : has_numeric_score sample_evaluate_result (PFloat 0.5)).
  { split; [reflexivity|]. split; [reflexivity|]. right. right. eexists. reflexivity. }
  assert (Hnewer : forall (h' : StepResult) (v' : pyval),
             h' ∈ @nil StepResult -> ~ has_numeric_score h' v').
  { intros h' v' H. now apply elem_of_nil in H. }
  pose proof (proj1 (C8_last_score_from_history (world_with [value_row sample_rescored])
                       sample_rescored false "p4" eq_refl ltac:(simpl; lia))
                [sample_exercise_result; sample_evaluate_result_high; sample_exercise_result]
                sample_evaluate_result [] (PFloat 0.5) 0.5%float
                eq_refl Hv Hnewer eq_refl) as (Hs & _ & Hid).
  split; [exact Hs|]. exact (Hid eq_refl).
Defined.

(** The call by id on the sample process, evaluated: the score 0.5 of the
    newest evaluation decides, not the 1.0 of the older one. *)
Example last_score_on_sample :
  orchestrator.suggest_next_step (world_with [value_row sample_rescored]) "p4" None false
  = ([Db_select "p4"],
     Ok (orchestrator.Suggest_ok false (Some "StepType.example")
           [Lit "Desempenho baixo (score="; Fmt_2f 0.5;
            Lit "); reforçar explicação/exemplo."]
           0.8 false)).
Proof. reflexivity. Qed.

(** A history without evaluation: the default progression is taken. *)
Example default_progression_on_sample :
  orchestrator.suggest_next_step_on (world_with []) sample_unscored None false
  = ([], Ok (sample_unscored,
             orchestrator.Suggest_ok false (Some "StepType.exercise")
               [Lit "Progredir conforme o fluxo padrão."] 0.6 false)).
Proof. reflexivity. Qed.

(** ** Applying a suggestion *)

(** C5: on a process that is not complete (cursor not negative), a call with
    [apply=True] returns [applied=True] and leaves a step list equal to the
    old one with the suggested step inserted at [current_index]: the steps
    before the cursor keep their place, every later step moves back by one;
    [history] and [current_index] are unchanged, and the new instance is the
    one handed to the store. [suggest_next_step], called with an id under
    which the store holds the process, reads it, hands that new instance to
    the store and returns [applied=True]. *)
Theorem C5_apply_inserts_at_cursor (w : world) (inst : ProcessInstance)
    (score ls : option float) :
  is_complete inst = false -> 0 <= current_index inst ->
  orchestrator.last_known_score inst score = Ok ls ->
  exists inst' sug completed rationale conf,
    orchestrator.suggest_next_step_on w inst score true
    = ([Db_update (id inst) (_serialize_instance w inst')],
       Ok (inst', orchestrator.Suggest_ok completed (Some (StepType_str sug))
                    rationale conf true))
    /\ (forall process_id,
          session_of_response w (db_select w process_id) "not_found"
          = (true, P_session inst) ->
          orchestrator.suggest_next_step w process_id score true
          = ([Db_select process_id; Db_update (id inst) (_serialize_instance w inst')],
             Ok (orchestrator.Suggest_ok completed (Some (StepType_str sug))
                   rationale conf true)))
    /\ let n := Z.to_nat (current_index inst) in
       steps inst' = (take n (steps inst) ++ sug :: drop n (steps inst))%list
       /\ length (steps inst') = S (length (steps inst))
       /\ (forall i, (i < n)%nat -> steps inst' !! i = steps inst !! i)
       /\ steps inst' !! n = Some sug
       /\ (forall i, (n <= i)%nat -> steps inst' !! S i = steps inst !! i)
       /\ history inst' = history inst
       /\ current_index inst' = current_index inst.
Proof.
  intros Hc H0 Hs.
  destruct (suggest_on_cases w inst score true ls Hc H0 Hs)
    as (nxt & sug & rat & conf & _ & _ & Hr).
  cbv zeta in Hr.
  destruct (py_slice_nonneg (steps inst) (current_index inst) H0) as [E1 E2].
  rewrite E1, E2 in Hr.
  unfold is_complete in Hc. apply Z.leb_gt in Hc.
  eexists _, sug, _, rat, conf. split; [exact Hr|]. split.
  { intros pid Hget. exact (suggest_by_id_returns _ _ _ _ _ _ _ _ Hget Hr). }
  cbv zeta. simpl steps. simpl history. simpl current_index.
  destruct (insert_at_lookup (steps inst) (Z.to_nat (current_index inst)) sug)
    as (Hl & Hb & Hm & Ha); [lia|].
  auto 10.
Qed.

Lemma C5_apply_inserts_at_cursor_witness :
  exists inst' sug completed rationale conf,
    orchestrator.suggest_next_step (world_with [value_row sample_evaluated]) "p1" None true
    = ([Db_select "p1";
        Db_update "p1" (_serialize_instance (world_with [value_row sample_evaluated]) inst')],
       Ok (orchestrator.Suggest_ok completed (Some (StepType_str sug)) rationale conf true))
    /\ steps inst' = (take 2 (steps sample_evaluated)
                      ++ sug :: drop 2 (steps sample_evaluated))%list
    /\ history inst' = history sample_evaluated
    /\ current_index inst' = current_index sample_evaluated.
Proof.
  destruct (C5_apply_inserts_at_cursor (world_with [value_row sample_evaluated])
              sample_evaluated None (Some 0.5%float)
              eq_refl ltac:(simpl; lia) eq_refl)
    as (inst' & sug & c & rat & conf & _ & Hid & Hsteps & _ & _ & _ & _ & Hh & Hi).
  exists inst', sug, c, rat, conf.
  split; [exact (Hid "p1" eq_refl)|]. split; [exact Hsteps|]. split; [exact Hh|exact Hi].
Defined.

(** The call by id on the sample process, evaluated. *)
Example apply_by_id_on_sample :
  orchestrator.suggest_next_step (world_with [value_row sample_evaluated]) "p1" None true
  = ([Db_select "p1";
      Db_update "p1"
        (_serialize_instance (world_with [value_row sample_evaluated])
           (set_steps sample_evaluated [exercise; evaluate; example; feedback]))],
     Ok (orchestrator.Suggest_ok false (Some "StepType.example")
           [Lit "Desempenho baixo (score="; Fmt_2f 0.5;
            Lit "); reforçar explicação/exemplo."]
           0.8 true)).
Proof. reflexivity. Qed.

(** The same call on the sample process, evaluated. *)
Example apply_on_sample :
  snd (orchestrator.suggest_next_step_on (world_with []) sample_evaluated None true)
  = Ok (set_steps sample_evaluated [exercise; evaluate; example; feedback],
        orchestrator.Suggest_ok false (Some "StepType.example")
          [Lit "Desempenho baixo (score="; Fmt_2f 0.5;
           Lit "); reforçar explicação/exemplo."]
          0.8 true).
Proof. reflexivity. Qed.

(** ** Suggesting without applying *)

(** C9: with [apply=False], [suggest_next_step] hands back the instance it
    was given (steps, cursor, history and all other fields) and its trace
    holds no write to the session table, whatever the process, the score and
    the store's answers; the whole operation, read included, writes nothing. *)
Theorem C9_suggest_without_apply_is_read_only (w : world) (inst : ProcessInstance)
    (score : option float) (process_id : string) :
  no_write (fst (orchestrator.suggest_next_step_on w inst score false))
  /\ (forall inst' res_,
        snd (orchestrator.suggest_next_step_on w inst score false) = Ok (inst', res_) ->
        inst' = inst)
  /\ no_write (fst (orchestrator.suggest_next_step w process_id score false)).
Proof.
  split; [|split].
  - destruct (suggest_on_read_only w inst score) as (r & -> & _). constructor.
  - destruct (suggest_on_read_only w inst score) as (r & -> & H). exact H.
  - unfold orchestrator.suggest_next_step, get_session.
    destruct (session_of_response w (db_select w process_id) "not_found") as [ok p].
    destruct ok; [|repeat constructor].
    destruct p as [i|e]; [|repeat constructor].
    cbn -[orchestrator.suggest_next_step_on].
    destruct (suggest_on_read_only w i score) as (r & -> & _).
    destruct r as [[i' r']|e]; repeat constructor.
Qed.

(** The read-only call on the sample process, evaluated. *)
Example suggest_on_sample :
  orchestrator.suggest_next_step_on (world_with []) sample_evaluated None false
  = ([], Ok (sample_evaluated,
             orchestrator.Suggest_ok false (Some "StepType.example")
               [Lit "Desempenho baixo (score="; Fmt_2f 0.5;
                Lit "); reforçar explicação/exemplo."]
               0.8 false)).
Proof. reflexivity. Qed.

(** ** Advancing *)



(** The two scores on the sample process, evaluated. *)
Example evaluate_scores_on_sample :
  let score_of r :=
    match snd r with
    | Ok (orchestrator.Advance_ok _ result _) => context result !! "score"
    | _ => None
    end in
  score_of (orchestrator.advance_on (world_with []) "p1" sample_at_evaluate (Some "x = 1"))
  = Some (PFloat 1.0)
  /\ score_of (orchestrator.advance_on (world_with []) "p1" sample_at_evaluate (Some ""))
     = Some (PFloat 0.5)
  /\ score_of (orchestrator.advance_on (world_with []) "p1" sample_at_evaluate None)
     = Some (PFloat 0.5)
  /\ score_of (orchestrator.advance_on (world_with []) "p2" sample_unscored (Some "x = 1"))
     = None.
Proof. repeat split. Qed.

Lemma advance_seq_complete (w : world) (pid : string) (inst : ProcessInstance)
    (inputs : list (option string)) :
  is_complete inst = true ->
  advance_seq w pid inputs inst
  = ([], Ok (map (fun _ => orchestrator.Advance_completed inst) inputs)).
Proof.
  intros Hc. induction inputs as [|ui inputs IH]; [reflexivity|].
  simpl. rewrite advance_on_complete by exact Hc. simpl. rewrite IH. reflexivity.
Qed.

(** C4: on a process with [current_index == len(steps)], [advance] returns
    success with [completed=True], no result, and the instance as it was
    (history and cursor included), with an empty trace; so does every call
    of any sequence of calls; through the store, the only call made is the
    read, and the endpoint answers [completed=True] without a step result. *)
Theorem C4_advance_when_complete (w : world) (process_id : string)
    (inst : ProcessInstance) :
  current_index inst = Z.of_nat (length (steps inst)) ->
  (forall user_input,
      orchestrator.advance_on w process_id inst user_input
      = ([], Ok (orchestrator.Advance_completed inst)))
  /\ (forall inputs,
        advance_seq w process_id inputs inst
        = ([], Ok (map (fun _ => orchestrator.Advance_completed inst) inputs)))
  /\ (forall user_input,
        session_of_response w (db_select w process_id) "not_found" = (true, P_session inst) ->
        orchestrator.advance w process_id user_input
        = ([Db_select process_id], Ok (orchestrator.Advance_completed inst))
        /\ education_api.advance_process w process_id user_input
           = ([Db_select process_id],
              Ok (education_api.Response
                    {| education_api.ap_completed := true;
                       education_api.ap_step_result := None |}))).
Proof.
  intros Hidx.
  assert (Hc : is_complete inst = true) by (unfold is_complete; apply Z.leb_le; lia).
  split; [|split].
  - intros ui. now apply advance_on_complete.
  - intros inputs. now apply advance_seq_complete.
  - intros ui Hget.
    assert (Ha : orchestrator.advance w process_id ui
                 = ([Db_select process_id], Ok (orchestrator.Advance_completed inst))).
    { unfold orchestrator.advance. rewrite get_session_eq, Hget.
      cbn -[orchestrator.advance_on]. rewrite advance_on_complete by exact Hc. reflexivity. }
    split; [exact Ha|]. unfold education_api.advance_process. rewrite Ha. reflexivity.
Qed.

Lemma C4_advance_when_complete_witness :
  orchestrator.advance (world_with [sample_complete_row]) "p3" (Some "again")
  = ([Db_select "p3"], Ok (orchestrator.Advance_completed sample_complete)).
Proof.
  apply (proj2 (proj2 (C4_advance_when_complete (world_with [sample_complete_row]) "p3"
                         sample_complete eq_refl))).
  reflexivity.
Defined.

(** ** The invariant *)

Lemma invariant_intro (inst : ProcessInstance) :
  0 <= current_index inst <= Z.of_nat (length (steps inst)) ->
  Z.of_nat (length (history inst)) = current_index inst ->
  invariant inst.
Proof.
  intros Hi Hh. split; [exact Hi|]. split; [|exact Hh].
  unfold is_complete. rewrite Z.leb_le. lia.
Qed.

Lemma advance_on_invariant (w : world) (pid : string) (ui : option string)
    (t : list event) (r : orchestrator.advance_result) (inst : ProcessInstance) :
  invariant inst ->
  orchestrator.advance_on w pid inst ui = (t, Ok r) ->
  invariant (instance_after r inst).
Proof.
  intros Hinv Hr. destruct (is_complete inst) eqn:Hc.
  - rewrite advance_on_complete in Hr by exact Hc. injection Hr as _ <-. exact Hinv.
  - destruct Hinv as ((H0 & H1) & _ & Hh).
    pose proof Hc as Hc'. unfold is_complete in Hc'. apply Z.leb_gt in Hc'.
    destruct (py_getitem_in_range (steps inst) (current_index inst)) as (st & Hs & _);
      [lia|].
    destruct (advance_on_step w pid inst ui st Hc Hs) as (t' & res_ & Hr' & _).
    cbv zeta in Hr'. rewrite Hr' in Hr. injection Hr as _ <-.
    apply invariant_intro; simpl; [lia|]. rewrite length_app. simpl. lia.
Qed.

Lemma suggest_on_invariant (w : world) (score : option float) (apply : bool)
    (t : list event) (r : orchestrator.suggest_result) (inst inst' : ProcessInstance) :
  invariant inst ->
  orchestrator.suggest_next_step_on w inst score apply = (t, Ok (inst', r)) ->
  invariant inst'.
Proof.
  intros Hinv Hr. destruct (is_complete inst) eqn:Hc.
  - unfold orchestrator.suggest_next_step_on in Hr. rewrite Hc in Hr.
    injection Hr as _ <- _. exact Hinv.
  - destruct Hinv as ((H0 & H1) & _ & Hh).
    destruct (orchestrator.last_known_score inst score) as [ls|e] eqn:Hs.
    + destruct (suggest_on_cases w inst score apply ls Hc H0 Hs)
        as (nxt & sug & rat & conf & _ & _ & Hr').
      cbv zeta in Hr'. rewrite Hr' in Hr. destruct apply; injection Hr as _ <- _.
      * destruct (py_slice_nonneg (steps inst) (current_index inst) H0) as [E1 E2].
        apply invariant_intro; simpl; [|exact Hh].
        rewrite E1, E2.
        destruct (insert_at_lookup (steps inst) (Z.to_nat (current_index inst)) sug)
          as (Hl & _); [lia|].
        simpl in Hl. rewrite Hl. lia.
      * apply invariant_intro; [lia|exact Hh].
    + unfold orchestrator.suggest_next_step_on in Hr. rewrite Hc, Hs in Hr. discriminate.
Qed.

Lemma reachable_invariant (inst : ProcessInstance) : reachable inst -> invariant inst.
Proof.
  induction 1 as [w u tp p t inst Hstart
                 |w pid ui t r inst Hreach IH Hadv
                 |w score apply t r inst inst' Hreach IH Hsug].
  - destruct (start_process_ok _ _ _ _ _ _ Hstart) as (ptype & s & rest & _ & _ & ->).
    apply invariant_intro; simpl; lia.
  - exact (advance_on_invariant _ _ _ _ _ _ IH Hadv).
  - exact (suggest_on_invariant _ _ _ _ _ _ _ IH Hsug).
Qed.

(** C2: every process reached from [start_process] by [advance] and
    [suggest_next_step] calls satisfies, after each call:
    [0 <= current_index <= len(steps)], [is_complete] exactly when
    [current_index == len(steps)], and [len(history) == current_index]. *)
Theorem C2_reachable_invariant (inst : ProcessInstance) :
  reachable inst ->
  0 <= current_index inst <= Z.of_nat (length (steps inst))
  /\ (is_complete inst = true <-> current_index inst = Z.of_nat (length (steps inst)))
  /\ Z.of_nat (length (history inst)) = current_index inst.
Proof. exact (reachable_invariant inst). Qed.

Lemma sample_advanced_reachable : reachable sample_advanced.
Proof.
  apply (reachable_advance (world_with []) "00000000-0000-4000-8000-000000000001" None
           [Rag_search [Lit "loops"; Lit " — etapa: "; Fmt_step exercise] 5;
            Db_update "00000000-0000-4000-8000-000000000001"
              (_serialize_instance (world_with []) sample_advanced);
            Progress_update "00000000-0000-4000-8000-000000000001" "in_progress"
              "StepType.exercise"]
           (orchestrator.Advance_ok false sample_first_result sample_advanced)
           sample_started).
  - apply (reachable_start (world_with []) "u1" "loops" "assessment"
             [Db_insert (_serialize_instance (world_with []) sample_started);
              Progress_start "00000000-0000-4000-8000-000000000001" "education_process"
                "loops" "StepType.exercise"]).
    reflexivity.
  - reflexivity.
Qed.

Lemma C2_reachable_invariant_witness :
  0 <= current_index sample_advanced <= Z.of_nat (length (steps sample_advanced))
  /\ (is_complete sample_advanced = true
      <-> current_index sample_advanced = Z.of_nat (length (steps sample_advanced)))
  /\ Z.of_nat (length (history sample_advanced)) = current_index sample_advanced.
Proof.
  apply (C2_reachable_invariant sample_advanced). exact sample_advanced_reachable.
Defined.

(** ** No index out of range *)

Lemma suggest_on_no_index_error (w : world) (inst : ProcessInstance)
    (score : option float) (apply : bool) :
  0 <= current_index inst ->
  snd (orchestrator.suggest_next_step_on w inst score apply) <> Raise IndexError.
Proof.
  intros H0. destruct (is_complete inst) eqn:Hc.
  - unfold orchestrator.suggest_next_step_on. rewrite Hc. discriminate.
  - destruct (orchestrator.last_known_score inst score) as [ls|e] eqn:Hs.
    + destruct (suggest_on_cases w inst score apply ls Hc H0 Hs)
        as (nxt & sug & rat & conf & _ & _ & Hr).
      cbv zeta in Hr. rewrite Hr. destruct apply; discriminate.
    + unfold orchestrator.suggest_next_step_on. rewrite Hc, Hs. simpl.
      unfold orchestrator.last_known_score in Hs. destruct score; [discriminate|].
      apply scan_last_score_raise in Hs. subst e. discriminate.
Qed.

(** C10: every catalog list has a first step, so [steps[0]] and
    [current_step()] succeed at start and the start endpoint answers; on
    every reachable process, [current_step()] succeeds whenever the process
    is not complete, [advance] returns, [suggest_next_step] does not raise
    [IndexError], and the get endpoint answers, with a null current step
    when the process is complete. *)
Theorem C10_no_index_out_of_range :
  (forall k l, get_workflow k = Ok l -> exists s, py_getitem l 0 = Ok s)
  /\ (forall w u tp p t inst,
        orchestrator.start_process w u tp p = (t, Ok inst) ->
        exists s, current_step inst = Ok s)
  /\ (forall w req ptype,
        ProcessType_of_value (education_api.req_process_type req) = Ok ptype ->
        exists t body,
          education_api.start_process w req = (t, Ok (education_api.Response body)))
  /\ (forall inst, reachable inst ->
        (is_complete inst = false -> exists s, current_step inst = Ok s)
        /\ (forall w pid ui, exists t r, orchestrator.advance_on w pid inst ui = (t, Ok r))
        /\ (forall w score apply,
              snd (orchestrator.suggest_next_step_on w inst score apply) <> Raise IndexError)
        /\ (forall w pid,
              session_of_response w (db_select w pid) "not_found" = (true, P_session inst) ->
              exists body,
                education_api.get_process w pid
                = ([Db_select pid], Ok (education_api.Response body))
                /\ (is_complete inst = true ->
                    education_api.gp_current_step body = None))).
Proof.
  split; [|split; [|split]].
  - intros k l H. destruct (get_workflow_nonempty k l H) as (s & rest & ->). eauto.
  - intros w u tp p t inst H.
    destruct (start_process_ok _ _ _ _ _ _ H) as (ptype & s & rest & _ & _ & ->). eauto.
  - intros w req ptype Hp. unfold education_api.start_process.
    destruct (orchestrator.start_process w (education_api.req_user_id req)
                (education_api.req_topic req) (education_api.req_process_type req))
      as [t [inst|e]] eqn:Hs.
    + destruct (start_process_ok _ _ _ _ _ _ Hs) as (pt & s & rest & _ & _ & ->).
      cbn. eauto.
    + exfalso. unfold orchestrator.start_process in Hs. rewrite Hp in Hs.
      cbn -[_serialize_instance session_of_response StepType_str get_workflow py_getitem]
        in Hs.
      destruct (get_workflow (ProcessType_value ptype)) as [l|e'] eqn:El.
      * cbn -[_serialize_instance session_of_response StepType_str] in Hs. discriminate.
      * destruct ptype; discriminate.
  - intros inst Hreach. destruct (reachable_invariant inst Hreach) as ((H0 & H1) & _ & _).
    split; [|split; [|split]].
    + intros Hc. unfold is_complete in Hc. apply Z.leb_gt in Hc.
      destruct (py_getitem_in_range (steps inst) (current_index inst)) as (s & Hs & _);
        [lia|]. eauto.
    + intros w pid ui. now apply advance_on_returns.
    + intros w score apply. now apply suggest_on_no_index_error.
    + intros w pid Hget. unfold education_api.get_process, orchestrator.get_process.
      rewrite get_session_eq, Hget. cbn -[is_complete current_step].
      destruct (is_complete inst) eqn:Hc; cbn -[current_step].
      * eexists. split; [reflexivity|]. reflexivity.
      * unfold is_complete in Hc. apply Z.leb_gt in Hc.
        destruct (py_getitem_in_range (steps inst) (current_index inst)) as (s & Hs & _);
          [lia|].
        unfold current_step. rewrite Hs. cbn. eexists. split; [reflexivity|discriminate].
Qed.

Lemma C10_no_index_out_of_range_witness :
  exists t r,
    orchestrator.advance_on (world_with []) "p" sample_advanced (Some "x = 1") = (t, Ok r).
Proof.
  apply (proj1 (proj2 (proj2 (proj2 (proj2 C10_no_index_out_of_range))
                         sample_advanced sample_advanced_reachable))).
Defined.

(** ** A store whose writes fail *)

(** C3 (what the code does): with a store whose insert and update raise, the
    session service reports the failure ([False] and an error), yet
    [start_process] returns the instance and the start endpoint answers with
    success, and [advance] returns success with a step result and the
    advance endpoint answers with success. *)
Theorem C3_write_failure_reported_as_success :
  let w := world_store_down [sample_at_evaluate_row] in
  let refused := (false, P_error (Err_str (ExternalError "connection refused"))) in
  (exists t inst body,
      orchestrator.start_process w "u1" "loops" "assessment" = (t, Ok inst)
      /\ snd (create_session w inst) = Ok refused
      /\ education_api.start_process w
           {| education_api.req_user_id := "u1"; education_api.req_topic := "loops";
              education_api.req_process_type := "assessment" |}
         = (t, Ok (education_api.Response body)))
  /\ (exists t completed result inst',
        orchestrator.advance w "p1" None
        = (t, Ok (orchestrator.Advance_ok completed result inst'))
        /\ history inst' = [sample_exercise_result; result]
        /\ snd (save_session w inst') = Ok refused
        /\ education_api.advance_process w "p1" None
           = (t, Ok (education_api.Response
                       {| education_api.ap_completed := completed;
                          education_api.ap_step_result :=
                            Some (education_api.history_entry result) |}))).
Proof.
  split.
  - eexists _, _, _. split; [reflexivity|]. split; reflexivity.
  - eexists _, _, _, _. split; [reflexivity|]. split; [reflexivity|]. split; reflexivity.
Qed.

(** For every store: what [start_process] and [advance] return does not
    depend on the answer to the write. *)
Lemma write_answer_ignored (w : world) (ins : session_row -> db_response)
    (upd : string -> session_row -> db_response) :
  let w' := {| uuid4 := uuid4 w; now := now w; db_insert := ins;
               db_select := db_select w; db_update := upd;
               rag_search_documents := rag_search_documents w;
               progress_start_raises := progress_start_raises w;
               progress_update_raises := progress_update_raises w;
               progress_complete_raises := progress_complete_raises w |} in
  (forall u tp p, snd (orchestrator.start_process w' u tp p)
                  = snd (orchestrator.start_process w u tp p))
  /\ (forall pid inst ui, snd (orchestrator.advance_on w' pid inst ui)
                          = snd (orchestrator.advance_on w pid inst ui)).
Proof.
  split.
  - intros u tp p. unfold orchestrator.start_process.
    destruct (ProcessType_of_value p) as [ptype|e]; [|reflexivity].
    cbn -[_serialize_instance session_of_response StepType_str get_workflow py_getitem].
    destruct (get_workflow (ProcessType_value ptype)) as [l|e]; [|reflexivity].
    cbn -[_serialize_instance session_of_response StepType_str py_getitem].
    reflexivity.
  - intros pid inst ui. unfold orchestrator.advance_on.
    destruct (is_complete inst); [reflexivity|].
    destruct (current_step inst) as [st|e]; [|reflexivity].
    cbn -[is_complete _serialize_instance session_of_response insert
          orchestrator.step_content].
    destruct (orchestrator.step_content (topic inst) st ui) as [c sc].
    cbn -[is_complete _serialize_instance session_of_response insert].
    reflexivity.
Qed.

(** * Further properties of the code *)

(** ** Enum values and rows *)

Lemma StepType_of_value_value (s : StepType) :
  StepType_of_value (Some (StepType_value s)) = Ok s.
Proof. now destruct s. Qed.

Lemma ProcessType_of_value_value (p : ProcessType) :
  ProcessType_of_value (ProcessType_value p) = Ok p.
Proof. now destruct p. Qed.

Lemma StepType_of_value_ok (v : option string) (s : StepType) :
  StepType_of_value v = Ok s -> v = Some (StepType_value s).
Proof.
  destruct v as [v|]; [|discriminate]. unfold StepType_of_value.
  repeat match goal with
         | |- context [String.eqb v ?c] =>
             destruct (String.eqb_spec v c) as [->|_];
             [simpl; intros [= <-]; reflexivity|]
         end.
  discriminate.
Qed.

Lemma ProcessType_of_value_ok (v : string) (p : ProcessType) :
  ProcessType_of_value v = Ok p -> v = ProcessType_value p.
Proof.
  unfold ProcessType_of_value.
  repeat match goal with
         | |- context [String.eqb v ?c] =>
             destruct (String.eqb_spec v c) as [->|_];
             [simpl; intros [= <-]; reflexivity|]
         end.
  discriminate.
Qed.

(** [res_map] succeeds exactly when [f] succeeds on every element. *)
Lemma res_map_ok {A B} (f : A -> res B) (l : list A) (ys : list B) :
  res_map f l = Ok ys <-> Forall2 (fun x y => f x = Ok y) l ys.
Proof.
  revert ys. induction l as [|x l IH]; intros ys; simpl.
  - split; [intros [= <-]; constructor|]. intros H. now inversion H.
  - destruct (f x) as [y|e] eqn:Ex; simpl.
    + destruct (res_map f l) as [zs|e] eqn:El; simpl.
      * split.
        -- intros [= <-]. constructor; [exact Ex|]. now apply IH.
        -- intros H. inversion H as [|? y' ? zs' Hy Hzs]; subst.
           rewrite Ex in Hy. injection Hy as <-.
           apply IH in Hzs. now injection Hzs as <-.
      * split; [discriminate|]. intros H. inversion H as [|? y' ? zs' Hy Hzs]; subst.
        apply IH in Hzs. discriminate.
    + split; [discriminate|]. intros H. inversion H as [|? y' ? zs' Hy Hzs]; subst.
      rewrite Ex in Hy. discriminate.
Qed.

(** ** What the store hands back *)

Lemma session_of_response_written (w w0 : world) (inst : ProcessInstance)
    (rest : list session_row) (empty : string) :
  exists e, session_of_response w (DbData (_serialize_instance w0 inst :: rest)) empty
            = (false, P_error (Err_str e)).
Proof.
  destruct (written_row_not_readable w0 w inst) as (v & c & H).
  simpl. rewrite H. eauto.
Qed.

(** What the operations answer when the read did not give a session. *)
Lemma read_failed (w : world) (pid : string) (p : payload) :
  session_of_response w (db_select w pid) "not_found" = (false, p) ->
  (forall ui, orchestrator.advance w pid ui
              = ([Db_select pid], Ok orchestrator.Advance_not_found))
  /\ (forall score apply,
        orchestrator.suggest_next_step w pid score apply
        = ([Db_select pid], Ok orchestrator.Suggest_not_found))
  /\ orchestrator.get_process w pid = ([Db_select pid], Ok None)
  /\ (forall ui, education_api.advance_process w pid ui
                 = ([Db_select pid],
                    Ok (education_api.HTTPException 404 (Err "process_not_found"))))
  /\ (forall score apply,
        education_api.suggest_next_step w pid score apply
        = ([Db_select pid],
           Ok (education_api.HTTPException 404 (Err "process_not_found"))))
  /\ education_api.get_process w pid
     = ([Db_select pid], Ok (education_api.HTTPException 404 (Err "process_not_found"))).
Proof.
  intros H.
  assert (Ha : forall ui, orchestrator.advance w pid ui
                          = ([Db_select pid], Ok orchestrator.Advance_not_found)).
  { intros ui. unfold orchestrator.advance. rewrite get_session_eq, H. reflexivity. }
  assert (Hs : forall score apply,
             orchestrator.suggest_next_step w pid score apply
             = ([Db_select pid], Ok orchestrator.Suggest_not_found)).
  { intros score apply. unfold orchestrator.suggest_next_step.
    rewrite get_session_eq, H. reflexivity. }
  assert (Hg : orchestrator.get_process w pid = ([Db_select pid], Ok None)).
  { unfold orchestrator.get_process. rewrite get_session_eq, H. reflexivity. }
  repeat split; try assumption.
  - intros ui. unfold education_api.advance_process. rewrite Ha. reflexivity.
  - intros score apply. unfold education_api.suggest_next_step. rewrite Hs. reflexivity.
  - unfold education_api.get_process. rewrite Hg. reflexivity.
Qed.

(** X1: a row written by the session service is never read back by it. The
    enum fields are written with [str] ([StepType.explain]) and read by value
    ([explain]), so deserializing a serialized instance raises [ValueError];
    hence, when the store answers a write with the written row, as an insert
    or update that returns its rows does, [create_session] and
    [save_session] report failure although the write was made. *)
Theorem X1_written_row_is_not_read_back (w w' : world) (inst : ProcessInstance) :
  (exists v c,
      _deserialize_instance w' (_serialize_instance w inst) = Raise (ValueError v c))
  /\ (forall rest,
        db_insert w (_serialize_instance w inst)
        = DbData (_serialize_instance w inst :: rest) ->
        exists e,
          create_session w inst
          = ([Db_insert (_serialize_instance w inst)], Ok (false, P_error (Err_str e))))
  /\ (forall rest,
        db_update w (id inst) (_serialize_instance w inst)
        = DbData (_serialize_instance w inst :: rest) ->
        exists e,
          save_session w inst
          = ([Db_update (id inst) (_serialize_instance w inst)],
             Ok (false, P_error (Err_str e)))).
Proof.
  split; [apply written_row_not_readable|]. split.
  - intros rest H. rewrite create_session_eq, H.
    destruct (session_of_response_written w w inst rest "failed_to_insert") as (e & ->).
    eauto.
  - intros rest H. rewrite save_session_eq, H.
    destruct (session_of_response_written w w inst rest "update_failed") as (e & ->).
    eauto.
Qed.

Lemma X1_written_row_is_not_read_back_witness :
  exists e,
    create_session (world_with []) sample_started
    = ([Db_insert (_serialize_instance (world_with []) sample_started)],
       Ok (false, P_error (Err_str e))).
Proof.
  apply (proj1 (proj2 (X1_written_row_is_not_read_back (world_with []) (world_with [])
                         sample_started)) []).
  reflexivity.
Defined.

(** X2: a session as the service stores it is not found again. When the
    select for an id answers with a row written by [_serialize_instance],
    [advance] and [suggest_next_step] return [process_not_found], and the
    three endpoints answer 404; nothing is written. *)
Theorem X2_stored_session_is_not_found (w w0 : world) (inst : ProcessInstance)
    (pid : string) (rest : list session_row) :
  db_select w pid = DbData (_serialize_instance w0 inst :: rest) ->
  (forall ui, orchestrator.advance w pid ui
              = ([Db_select pid], Ok orchestrator.Advance_not_found))
  /\ (forall score apply,
        orchestrator.suggest_next_step w pid score apply
        = ([Db_select pid], Ok orchestrator.Suggest_not_found))
  /\ orchestrator.get_process w pid = ([Db_select pid], Ok None)
  /\ (forall ui, education_api.advance_process w pid ui
                 = ([Db_select pid],
                    Ok (education_api.HTTPException 404 (Err "process_not_found"))))
  /\ (forall score apply,
        education_api.suggest_next_step w pid score apply
        = ([Db_select pid],
           Ok (education_api.HTTPException 404 (Err "process_not_found"))))
  /\ education_api.get_process w pid
     = ([Db_select pid], Ok (education_api.HTTPException 404 (Err "process_not_found"))).
Proof.
  intros H.
  destruct (session_of_response_written w w0 inst rest "not_found") as (e & He).
  apply (read_failed w pid (P_error (Err_str e))). now rewrite H.
Qed.

Lemma X2_stored_session_is_not_found_witness :
  education_api.get_process
    (world_with [_serialize_instance (world_with []) sample_started])
    "00000000-0000-4000-8000-000000000001"
  = ([Db_select "00000000-0000-4000-8000-000000000001"],
     Ok (education_api.HTTPException 404 (Err "process_not_found"))).
Proof.
  apply (X2_stored_session_is_not_found
           (world_with [_serialize_instance (world_with []) sample_started])
           (world_with []) sample_started "00000000-0000-4000-8000-000000000001" []).
  reflexivity.
Defined.

(** ** Reading rows *)

Lemma or_str_nonempty (s fallback : string) : s <> "" -> or_str (Some s) fallback = s.
Proof. intros H. simpl. apply String.eqb_neq in H. now rewrite H. Qed.

(** X3: a row that holds an instance's fields, its enum members by value and
    no empty timestamp, is read back as that instance. An empty timestamp
    would be replaced by the time of the read. *)
Theorem X3_value_row_is_read_back (w : world) (inst : ProcessInstance) :
  created_at inst <> "" -> updated_at inst <> "" ->
  Forall (fun h => sr_created_at h <> "") (history inst) ->
  _deserialize_instance w (value_row inst) = Ok inst.
Proof.
  intros Hc Hu Hh. unfold _deserialize_instance, value_row. cbn [r_history r_steps
    r_process_type r_id r_user_id r_topic r_current_index r_created_at r_updated_at or_nil
    default].
  assert (E1 : res_map
                 (fun h => st ← StepType_of_value (hr_step h);
                           Ok {| step := st; content := default "" (hr_content h);
                                 context := default ∅ (hr_context h);
                                 sr_created_at := or_str (hr_created_at h) (now w) |})
                 (map (fun h => {| hr_step := Some (StepType_value (step h));
                                   hr_content := Some (content h);
                                   hr_context := Some (context h);
                                   hr_created_at := Some (sr_created_at h) |})
                      (history inst))
               = Ok (history inst)).
  { induction Hh as [|h hs Hne _ IH]; [reflexivity|].
    cbn [map res_map hr_step hr_content hr_context hr_created_at].
    rewrite StepType_of_value_value. cbn [mbind res_bind]. rewrite IH. cbn [mbind res_bind].
    rewrite or_str_nonempty by exact Hne. now destruct h. }
  assert (E2 : res_map (fun s => StepType_of_value (Some s))
                 (map StepType_value (steps inst)) = Ok (steps inst)).
  { induction (steps inst) as [|s ss IH]; [reflexivity|].
    cbn [map res_map]. rewrite StepType_of_value_value. cbn [mbind res_bind].
    rewrite IH. reflexivity. }
  unfold Datatypes.id in *. rewrite E1. cbn [mbind res_bind]. rewrite E2. cbn [mbind res_bind].
  rewrite ProcessType_of_value_value. cbn [mbind res_bind].
  rewrite !or_str_nonempty by assumption. now destruct inst.
Qed.

Lemma X3_value_row_is_read_back_witness :
  _deserialize_instance (world_with []) (value_row sample_rescored) = Ok sample_rescored.
Proof.
  apply (X3_value_row_is_read_back (world_with []) sample_rescored).
  - discriminate.
  - discriminate.
  - repeat constructor; discriminate.
Defined.

Lemma res_map_all_ok {A B} (f : A -> res B) (l : list A) :
  (exists ys, res_map f l = Ok ys) <-> Forall (fun x => exists y, f x = Ok y) l.
Proof.
  induction l as [|x l IH]; simpl.
  - split; [constructor|eauto].
  - split.
    + intros (ys & H). destruct (f x) as [y|e] eqn:Ex; [|discriminate].
      destruct (res_map f l) as [zs|e] eqn:El; [|discriminate].
      constructor; [eauto|]. apply IH. eauto.
    + intros H. inversion H as [|? ? (y & Hy) Hl]; subst.
      apply IH in Hl as (zs & Hz). rewrite Hy, Hz. simpl. eauto.
Qed.

Lemma res_map_raise {A B} (f : A -> res B) (l : list A) (e : exn) :
  res_map f l = Raise e -> exists x, In x l /\ f x = Raise e.
Proof.
  induction l as [|x l IH]; simpl; [discriminate|].
  destruct (f x) as [y|e'] eqn:Ex; simpl.
  - destruct (res_map f l) as [zs|e'] eqn:El; simpl; [discriminate|].
    intros [= <-]. destruct (IH eq_refl) as (x' & Hin & Hx'). eauto.
  - intros [= <-]. eauto.
Qed.

Lemma StepType_of_value_raise (v : option string) (e : exn) :
  StepType_of_value v = Raise e -> e = ValueError v "StepType".
Proof.
  destruct v as [v|]; [|now intros [= <-]]. unfold StepType_of_value.
  repeat match goal with
         | |- context [String.eqb v ?c] =>
             destruct (String.eqb_spec v c) as [->|_]; [discriminate|]
         end.
  now intros [= <-].
Qed.

Lemma ProcessType_of_value_raise (v : string) (e : exn) :
  ProcessType_of_value v = Raise e -> e = ValueError (Some v) "ProcessType".
Proof.
  unfold ProcessType_of_value.
  repeat match goal with
         | |- context [String.eqb v ?c] =>
             destruct (String.eqb_spec v c) as [->|_]; [discriminate|]
         end.
  now intros [= <-].
Qed.

Lemma history_rows_read (w : world) (l : list history_row) :
  (exists ys,
      res_map (fun h =>
                 st ← StepType_of_value (hr_step h);
                 Ok {| step := st;
                       content := default "" (hr_content h);
                       context := default ∅ (hr_context h);
                       sr_created_at := or_str (hr_created_at h) (now w) |}) l = Ok ys)
  <-> Forall names_step l.
Proof.
  rewrite res_map_all_ok. apply Forall_iff. intros h. unfold names_step. split.
  - intros (y & Hy). destruct (StepType_of_value (hr_step h)) as [st|e] eqn:E;
      [|discriminate].
    exists st. now apply StepType_of_value_ok.
  - intros (s & Hs). rewrite Hs, StepType_of_value_value. simpl. eauto.
Qed.

Lemma step_values_read (l : list string) :
  (exists ys, res_map (fun s => StepType_of_value (Some s)) l = Ok ys)
  <-> Forall (fun v => exists s, v = StepType_value s) l.
Proof.
  rewrite res_map_all_ok. apply Forall_iff. intros v. split.
  - intros (y & Hy). exists y. apply StepType_of_value_ok in Hy. now injection Hy.
  - intros (s & ->). rewrite StepType_of_value_value. eauto.
Qed.

Lemma step_values_of_read (l : list string) (ys : list StepType) :
  res_map (fun s => StepType_of_value (Some s)) l = Ok ys -> map StepType_value ys = l.
Proof.
  rewrite res_map_ok. induction 1 as [|v s l ys Hv _ IH]; [reflexivity|].
  simpl. rewrite IH. apply StepType_of_value_ok in Hv. now injection Hv as <-.
Qed.

(** When [_deserialize_instance] accepts a row, and what it returns. *)
Lemma deserialize_accepts (w : world) (row : session_row) :
  ((exists inst, _deserialize_instance w row = Ok inst)
   <-> Forall names_step (or_nil (r_history row))
       /\ Forall (fun v => exists s, v = StepType_value s) (or_nil (r_steps row))
       /\ exists p, r_process_type row = ProcessType_value p)
  /\ (forall e, _deserialize_instance w row = Raise e -> exists v c, e = ValueError v c)
  /\ (forall inst,
        _deserialize_instance w row = Ok inst ->
        id inst = r_id row /\ user_id inst = r_user_id row /\ topic inst = r_topic row
        /\ ProcessType_value (process_type inst) = r_process_type row
        /\ map StepType_value (steps inst) = or_nil (r_steps row)
        /\ length (history inst) = length (or_nil (r_history row))
        /\ current_index inst = default 0 (r_current_index row)).
Proof.
  pose proof (history_rows_read w (or_nil (r_history row))) as Hh.
  pose proof (step_values_read (or_nil (r_steps row))) as Hs.
  unfold _deserialize_instance.
  destruct (res_map _ (or_nil (r_history row))) as [hs|eh] eqn:Eh.
  2:{ split; [|split].
      - split; [intros (inst & H); discriminate|].
        intros (H & _). apply Hh in H as (ys & H). discriminate.
      - simpl. intros e [= <-]. apply res_map_raise in Eh as (h & _ & Hx).
        destruct (StepType_of_value (hr_step h)) as [st|e'] eqn:E; [discriminate|].
        simpl in Hx. injection Hx as <-. apply StepType_of_value_raise in E. eauto.
      - discriminate. }
  destruct (res_map _ (or_nil (r_steps row))) as [ss|es] eqn:Es.
  2:{ split; [|split].
      - split; [intros (inst & H); discriminate|].
        intros (_ & H & _). apply Hs in H as (ys & H). discriminate.
      - simpl. intros e [= <-]. apply res_map_raise in Es as (v & _ & Hx).
        apply StepType_of_value_raise in Hx. eauto.
      - discriminate. }
  destruct (ProcessType_of_value (r_process_type row)) as [p|ep] eqn:Ep.
  2:{ split; [|split].
      - split; [intros (inst & H); discriminate|].
        intros (_ & _ & p & Hp). rewrite Hp, ProcessType_of_value_value in Ep.
        discriminate.
      - simpl. intros e [= <-]. apply ProcessType_of_value_raise in Ep. eauto.
      - discriminate. }
  simpl. split; [|split].
  - split; [|eauto]. intros _. split; [apply Hh; eauto|]. split; [apply Hs; eauto|].
    exists p. now apply ProcessType_of_value_ok.
  - discriminate.
  - intros inst [= <-]. simpl. repeat split.
    + symmetry. now apply ProcessType_of_value_ok.
    + now apply step_values_of_read.
    + apply res_map_ok in Eh. symmetry. exact (Forall2_length _ _ _ Eh).
Qed.

(** X4: [_deserialize_instance] accepts a row exactly when every history
    entry and every step names a step by its value and the process type is
    the value of a process type; otherwise it raises [ValueError]. What it
    returns carries the row's id, user, topic, type and steps, a history
    entry per entry of the row, and the cursor the row holds, or 0 when the
    row has no ["current_index"] key. *)
Theorem X4_deserialize_accepts (w : world) (row : session_row) :
  ((exists inst, _deserialize_instance w row = Ok inst)
   <-> Forall names_step (or_nil (r_history row))
       /\ Forall (fun v => exists s, v = StepType_value s) (or_nil (r_steps row))
       /\ exists p, r_process_type row = ProcessType_value p)
  /\ (forall e, _deserialize_instance w row = Raise e -> exists v c, e = ValueError v c)
  /\ (forall inst,
        _deserialize_instance w row = Ok inst ->
        id inst = r_id row /\ user_id inst = r_user_id row /\ topic inst = r_topic row
        /\ ProcessType_value (process_type inst) = r_process_type row
        /\ map StepType_value (steps inst) = or_nil (r_steps row)
        /\ length (history inst) = length (or_nil (r_history row))
        /\ match r_current_index row with
           | Some c => current_index inst = c
           | None => current_index inst = 0
           end).
Proof.
  destruct (deserialize_accepts w row) as (Hiff & Hraise & Hfields).
  split; [exact Hiff|]. split; [exact Hraise|].
  intros inst Hd. destruct (Hfields inst Hd) as (H1 & H2 & H3 & H4 & H5 & H6 & H7).
  repeat (split; [assumption|]). destruct (r_current_index row); exact H7.
Qed.

Lemma X4_deserialize_accepts_witness :
  exists inst, _deserialize_instance (world_with []) sample_at_evaluate_row = Ok inst.
Proof.
  apply (proj1 (X4_deserialize_accepts (world_with []) sample_at_evaluate_row)).
  split; [|split].
  - repeat constructor. exists exercise. reflexivity.
  - repeat constructor; [exists exercise|exists evaluate|exists feedback]; reflexivity.
  - exists assessment. reflexivity.
Defined.

(** X5: a row without steps (missing, null or empty) whose cursor is a
    number that is not negative is read as a process that is complete from
    the start: [advance] reads it, executes no step and writes nothing, and
    the get endpoint reports it completed with a null current step. *)
Theorem X5_row_without_steps_is_complete (w : world) (row : session_row)
    (pid : string) (rest : list session_row) (c : Z) :
  or_nil (r_steps row) = [] -> r_current_index row = Some c -> 0 <= c ->
  Forall names_step (or_nil (r_history row)) ->
  (exists p, r_process_type row = ProcessType_value p) ->
  db_select w pid = DbData (row :: rest) ->
  exists inst,
    steps inst = [] /\ current_index inst = c /\ is_complete inst = true
    /\ (forall ui, orchestrator.advance w pid ui
                   = ([Db_select pid], Ok (orchestrator.Advance_completed inst)))
    /\ exists body,
         education_api.get_process w pid
         = ([Db_select pid], Ok (education_api.Response body))
         /\ education_api.gp_completed body = true
         /\ education_api.gp_current_step body = None
         /\ education_api.gp_steps body = [].
Proof.
  intros Hsteps Hcur Hidx Hhist Hp Hsel.
  assert (Hvalues : Forall (fun v => exists s, v = StepType_value s) (or_nil (r_steps row)))
    by (rewrite Hsteps; constructor).
  destruct (proj2 (proj1 (deserialize_accepts w row)) (conj Hhist (conj Hvalues Hp)))
    as (inst & Hd).
  destruct (proj2 (proj2 (deserialize_accepts w row)) inst Hd)
    as (_ & _ & _ & _ & Hs & _ & Hi).
  rewrite Hsteps in Hs. apply map_eq_nil in Hs.
  rewrite Hcur in Hi. simpl in Hi.
  assert (Hc : is_complete inst = true).
  { unfold is_complete. rewrite Hs, Hi. simpl. now apply Z.leb_le. }
  assert (Hget : session_of_response w (db_select w pid) "not_found" = (true, P_session inst)).
  { rewrite Hsel. simpl. now rewrite Hd. }
  exists inst. split; [exact Hs|]. split; [exact Hi|]. split; [exact Hc|]. split.
  - intros ui. rewrite advance_eq, Hget, advance_on_complete by exact Hc. reflexivity.
  - unfold education_api.get_process, orchestrator.get_process.
    rewrite get_session_eq, Hget. cbn -[is_complete current_step].
    destruct (is_complete inst); [|discriminate]. cbn.
    eexists. split; [reflexivity|]. simpl. rewrite Hs. auto.
Qed.

Lemma X5_row_without_steps_is_complete_witness :
  exists inst,
    steps inst = [] /\ current_index inst = 0 /\ is_complete inst = true
    /\ (forall ui, orchestrator.advance (world_with [sample_bare_row]) "p5" ui
                   = ([Db_select "p5"], Ok (orchestrator.Advance_completed inst)))
    /\ exists body,
         education_api.get_process (world_with [sample_bare_row]) "p5"
         = ([Db_select "p5"], Ok (education_api.Response body))
         /\ education_api.gp_completed body = true
         /\ education_api.gp_current_step body = None
         /\ education_api.gp_steps body = [].
Proof.
  apply (X5_row_without_steps_is_complete (world_with [sample_bare_row]) sample_bare_row
           "p5" [] 0).
  - reflexivity.
  - reflexivity.
  - lia.
  - constructor.
  - exists assessment. reflexivity.
  - reflexivity.
Defined.

(** ** Reads that give no session *)

(** X6: when the read gives no session, because the store has no row for
    the id, or raised, or holds a row that [_deserialize_instance] rejects,
    [advance] and [suggest_next_step] return [process_not_found] and the
    advance, suggest and get endpoints answer 404; the only call made is the
    read. A store failure during the read is thus reported as a missing
    process. *)
Theorem X6_failed_read_is_not_found (w : world) (pid : string) :
  db_select w pid = DbData []
  \/ (exists e, db_select w pid = DbRaise e)
  \/ (exists row rest e,
        db_select w pid = DbData (row :: rest) /\ _deserialize_instance w row = Raise e) ->
  (forall ui, orchestrator.advance w pid ui
              = ([Db_select pid], Ok orchestrator.Advance_not_found))
  /\ (forall score apply,
        orchestrator.suggest_next_step w pid score apply
        = ([Db_select pid], Ok orchestrator.Suggest_not_found))
  /\ orchestrator.get_process w pid = ([Db_select pid], Ok None)
  /\ (forall ui, education_api.advance_process w pid ui
                 = ([Db_select pid],
                    Ok (education_api.HTTPException 404 (Err "process_not_found"))))
  /\ (forall score apply,
        education_api.suggest_next_step w pid score apply
        = ([Db_select pid],
           Ok (education_api.HTTPException 404 (Err "process_not_found"))))
  /\ education_api.get_process w pid
     = ([Db_select pid], Ok (education_api.HTTPException 404 (Err "process_not_found"))).
Proof.
  intros [H|[(e & H)|(row & rest & e & H & Hd)]].
  - apply (read_failed w pid (P_error (Err "not_found"))). now rewrite H.
  - apply (read_failed w pid (P_error (Err_str e))). now rewrite H.
  - apply (read_failed w pid (P_error (Err_str e))). rewrite H. simpl. now rewrite Hd.
Qed.

Lemma X6_failed_read_is_not_found_witness :
  education_api.advance_process (world_with []) "p1" (Some "x = 1")
  = ([Db_select "p1"], Ok (education_api.HTTPException 404 (Err "process_not_found"))).
Proof.
  apply (proj1 (proj2 (proj2 (proj2 (X6_failed_read_is_not_found (world_with []) "p1"
                                       (or_introl eq_refl)))))).
Defined.

(** ** Cursors outside the step list *)

Lemma py_getitem_negative {A} (l : list A) (i : Z) :
  - Z.of_nat (length l) <= i < 0 ->
  exists x, py_getitem l i = Ok x
            /\ nth_error l (Z.to_nat (i + Z.of_nat (length l))) = Some x.
Proof.
  intros [H0 H1]. unfold py_getitem. cbv zeta.
  assert (E0 : (i <? 0) = true) by (apply Z.ltb_lt; lia).
  assert (E1 : (i + Z.of_nat (length l) <? 0) = false) by (apply Z.ltb_ge; lia).
  assert (E2 : (Z.of_nat (length l) <=? i + Z.of_nat (length l)) = false)
    by (apply Z.leb_gt; lia).
  rewrite !E0, E1, E2. simpl.
  destruct (nth_error l (Z.to_nat (i + Z.of_nat (length l)))) as [x|] eqn:E; [eauto|].
  apply nth_error_None in E. lia.
Qed.

Lemma py_getitem_below {A} (l : list A) (i : Z) :
  i < - Z.of_nat (length l) -> py_getitem l i = @Raise A IndexError.
Proof.
  intros H. unfold py_getitem. cbv zeta.
  assert (E0 : (i <? 0) = true) by (apply Z.ltb_lt; lia).
  assert (E1 : (i + Z.of_nat (length l) <? 0) = true) by (apply Z.ltb_lt; lia).
  rewrite !E0, E1. reflexivity.
Qed.

(** X7: a cursor below [-len(steps)] makes [advance] raise [IndexError].
    Such a process counts as not complete and has no current step: the body
    of [advance] raises before it calls a collaborator; [advance], called
    with an id under which the store holds the process, makes the read and
    raises, nothing being retrieved or written; the advance endpoint then
    answers 500. *)
Theorem X7_cursor_below_the_list_raises (w : world) (pid : string)
    (inst : ProcessInstance) (ui : option string) :
  current_index inst < - Z.of_nat (length (steps inst)) ->
  is_complete inst = false
  /\ current_step inst = Raise IndexError
  /\ orchestrator.advance_on w pid inst ui = ([], Raise IndexError)
  /\ (session_of_response w (db_select w pid) "not_found" = (true, P_session inst) ->
      orchestrator.advance w pid ui = ([Db_select pid], Raise IndexError)
      /\ education_api.advance_process w pid ui
         = ([Db_select pid], Ok (education_api.HTTPException 500 (Err_str IndexError)))).
Proof.
  intros H.
  assert (Hc : is_complete inst = false) by (unfold is_complete; apply Z.leb_gt; lia).
  assert (Hs : current_step inst = Raise IndexError)
    by (unfold current_step; now apply py_getitem_below).
  assert (Hon : orchestrator.advance_on w pid inst ui = ([], Raise IndexError)).
  { unfold orchestrator.advance_on. rewrite Hc, Hs. reflexivity. }
  split; [exact Hc|]. split; [exact Hs|]. split; [exact Hon|].
  intros Hget. split.
  - rewrite advance_eq, Hget, Hon. reflexivity.
  - unfold education_api.advance_process. rewrite advance_eq, Hget, Hon. reflexivity.
Qed.

Lemma X7_cursor_below_the_list_raises_witness :
  orchestrator.advance (world_with [value_row sample_cursor_below]) (id sample_cursor_below)
    None
  = ([Db_select (id sample_cursor_below)], Raise IndexError)
  /\ education_api.advance_process (world_with [value_row sample_cursor_below])
       (id sample_cursor_below) None
     = ([Db_select (id sample_cursor_below)],
        Ok (education_api.HTTPException 500 (Err_str IndexError))).
Proof.
  apply (proj2 (proj2 (proj2 (X7_cursor_below_the_list_raises
                                (world_with [value_row sample_cursor_below])
                                (id sample_cursor_below) sample_cursor_below None
                                ltac:(simpl; lia))))).
  reflexivity.
Defined.



(** On the sample, the step executed is the last one, [feedback]. *)
Example negative_cursor_on_sample :
  match snd (orchestrator.advance_on (world_with []) "p" sample_cursor_from_end None) with
  | Ok (orchestrator.Advance_ok _ result inst') => (step result, current_index inst')
  | _ => (explain, -1)
  end = (feedback, 0).
Proof. reflexivity. Qed.

(** ** The effects of [advance] *)

(** [advance] on a process that is not complete, call by call. *)
Lemma advance_on_eq (w : world) (pid : string) (inst : ProcessInstance)
    (ui : option string) (st : StepType) :
  is_complete inst = false -> current_step inst = Ok st ->
  orchestrator.advance_on w pid inst ui
  = (([Rag_search [Lit (topic inst); Lit " — etapa: "; Fmt_step st] 5;
       Db_update (id inst) (_serialize_instance w (advanced w inst st ui));
       Progress_update pid
         (if is_complete (advanced w inst st ui) then "completed" else "in_progress")
         (StepType_str st)]
      ++ (if is_complete (advanced w inst st ui) && negb (progress_update_raises w)
          then [Progress_complete pid] else []))%list,
     Ok (orchestrator.Advance_ok (is_complete (advanced w inst st ui))
           (result_of_step w inst st ui) (advanced w inst st ui))).
Proof.
  intros Hc Hs. unfold orchestrator.advance_on. rewrite Hc, Hs.
  unfold advanced, result_of_step.
  destruct (orchestrator.step_content (topic inst) st ui) as [c sc] eqn:E.
  cbn -[is_complete _serialize_instance session_of_response insert].
  rewrite E.
  cbn -[is_complete _serialize_instance session_of_response insert].
  match goal with |- context [is_complete ?i] => destruct (is_complete i) end;
    destruct (progress_update_raises w), (progress_complete_raises w); reflexivity.
Qed.





(** [start_process] for a process type that exists, call by call. *)
Lemma start_process_eq (w : world) (u tp p : string) (ptype : ProcessType) :
  ProcessType_of_value p = Ok ptype ->
  exists s rest,
    get_workflow (ProcessType_value ptype) = Ok (s :: rest)
    /\ let inst := {| id := uuid4 w; user_id := u; topic := tp; process_type := ptype;
                      steps := s :: rest; current_index := 0; history := [];
                      created_at := now w; updated_at := now w |} in
       orchestrator.start_process w u tp p
       = ([Db_insert (_serialize_instance w inst);
           Progress_start (uuid4 w) "education_process" tp (StepType_str s)],
          Ok inst).
Proof.
  intros Hp.
  assert (exists s rest, get_workflow (ProcessType_value ptype) = Ok (s :: rest))
    as (s & rest & Hw) by (destruct ptype; eauto).
  exists s, rest. split; [exact Hw|]. unfold orchestrator.start_process. rewrite Hp.
  cbn -[_serialize_instance session_of_response StepType_str get_workflow py_getitem].
  rewrite Hw.
  cbn -[_serialize_instance session_of_response StepType_str].
  destruct (progress_start_raises w); reflexivity.
Qed.

(** X11: failures of the progress service are absorbed. Two worlds that
    differ only in whether the progress calls raise give the same call of
    [start_process] (trace and instance), and the same result and the same
    store writes for [advance]. *)
Theorem X11_progress_failures_are_absorbed (w w' : world) :
  uuid4 w = uuid4 w' -> now w = now w' ->
  (forall r, db_insert w r = db_insert w' r) ->
  (forall i r, db_update w i r = db_update w' i r) ->
  (forall q n, rag_search_documents w q n = rag_search_documents w' q n) ->
  (forall u tp p, orchestrator.start_process w u tp p = orchestrator.start_process w' u tp p)
  /\ (forall pid inst ui,
        snd (orchestrator.advance_on w pid inst ui)
        = snd (orchestrator.advance_on w' pid inst ui)
        /\ List.filter is_write (fst (orchestrator.advance_on w pid inst ui))
           = List.filter is_write (fst (orchestrator.advance_on w' pid inst ui))).
Proof.
  intros Hu Hn Hi Hup Hr.
  assert (Hser : forall i, _serialize_instance w i = _serialize_instance w' i).
  { intros i. unfold _serialize_instance. now rewrite Hn. }
  split.
  - intros u tp p. destruct (ProcessType_of_value p) as [ptype|e] eqn:Hp.
    + destruct (start_process_eq w u tp p ptype Hp) as (s & rest & Hw & ->).
      destruct (start_process_eq w' u tp p ptype Hp) as (s' & rest' & Hw' & ->).
      rewrite Hw in Hw'. injection Hw' as <- <-. now rewrite Hser, Hu, Hn.
    + unfold orchestrator.start_process. now rewrite Hp.
  - intros pid inst ui. destruct (is_complete inst) eqn:Hc.
    { now rewrite !advance_on_complete by exact Hc. }
    destruct (current_step inst) as [st|e] eqn:Hs.
    + rewrite (advance_on_eq w pid inst ui st Hc Hs), (advance_on_eq w' pid inst ui st Hc Hs).
      assert (Ha : advanced w inst st ui = advanced w' inst st ui).
      { unfold advanced, result_of_step. now rewrite Hr, Hn. }
      assert (Hres : result_of_step w inst st ui = result_of_step w' inst st ui).
      { unfold result_of_step. now rewrite Hr, Hn. }
      cbn [fst snd]. rewrite Ha, Hres, Hser. split; [reflexivity|].
      destruct (is_complete (advanced w' inst st ui)), (progress_update_raises w),
        (progress_update_raises w'); reflexivity.
    + unfold orchestrator.advance_on. now rewrite Hc, Hs.
Qed.

Lemma X11_progress_failures_are_absorbed_witness :
  orchestrator.start_process (world_with []) "u1" "loops" "assessment"
  = orchestrator.start_process (world_progress_down []) "u1" "loops" "assessment".
Proof.
  apply (proj1 (X11_progress_failures_are_absorbed (world_with []) (world_progress_down [])
                  eq_refl eq_refl (fun _ => eq_refl) (fun _ _ => eq_refl)
                  (fun _ _ => eq_refl))).
Defined.

(** ** Sequences of calls *)

Lemma skipn_nth_error {A} (l : list A) (n : nat) (x : A) :
  nth_error l n = Some x -> skipn n l = x :: skipn (S n) l.
Proof.
  revert n. induction l as [|y l IH]; intros [|n] H; try discriminate.
  - now injection H as <-.
  - simpl in H. now apply IH.
Qed.

(** X12: from a process whose cursor lies within its steps, as many calls
    of [advance] by id as steps remain all succeed, execute the remaining
    steps in order and leave the process complete, provided the store keeps
    the session readable from call to call (each call reads what the call
    before it left): the cursor is then [len(steps)], the steps are
    unchanged, the history has one entry more per executed step, in the
    order of the steps, and only the last call reports [completed]. *)
Theorem X12_advancing_to_completion (pid : string) (calls : list (world * option string))
    (inst : ProcessInstance) :
  0 <= current_index inst <= Z.of_nat (length (steps inst)) ->
  Z.of_nat (length calls) = Z.of_nat (length (steps inst)) - current_index inst ->
  reads_in_turn pid calls inst ->
  exists t rs,
    advance_calls pid calls = (t, Ok rs)
    /\ map executed_step rs = map Some (skipn (Z.to_nat (current_index inst)) (steps inst))
    /\ (forall k r, rs !! k = Some r ->
          exists result i,
            r = orchestrator.Advance_ok (bool_decide (S k = length rs)) result i)
    /\ let final := instance_after_all rs inst in
       is_complete final = true
       /\ current_index final = Z.of_nat (length (steps inst))
       /\ steps final = steps inst
       /\ map step (history final)
          = (map step (history inst)
             ++ skipn (Z.to_nat (current_index inst)) (steps inst))%list.
Proof.
  revert inst. induction calls as [|[w ui] calls IH]; intros inst Hi Hlen Hreads.
  - simpl in Hlen. exists [], []. split; [reflexivity|].
    assert (E : Z.to_nat (current_index inst) = length (steps inst)) by lia.
    rewrite E, skipn_all. split; [reflexivity|].
    split; [intros k r Hk; discriminate|]. cbn.
    split; [unfold is_complete; apply Z.leb_le; lia|].
    split; [lia|]. split; [reflexivity|]. now rewrite app_nil_r.
  - simpl length in Hlen. destruct Hreads as [Hget Hreads].
    assert (Hc : is_complete inst = false) by (unfold is_complete; apply Z.leb_gt; lia).
    destruct (py_getitem_in_range (steps inst) (current_index inst)) as (st & Hs & Hn);
      [lia|].
    pose proof (advance_on_eq w pid inst ui st Hc Hs) as Ha.
    assert (Hleft : left_by_advance w pid inst ui = advanced w inst st ui)
      by (unfold left_by_advance; rewrite Ha; reflexivity).
    rewrite Hleft in Hreads.
    destruct (IH (advanced w inst st ui)) as (t & rs & Hseq & Hsteps & Hflags & Hfinal).
    { simpl. lia. }
    { simpl. lia. }
    { exact Hreads. }
    cbv zeta in Hfinal. destruct Hfinal as (Hf1 & Hf2 & Hf3 & Hf4).
    simpl in Hsteps, Hf2, Hf3, Hf4.
    replace (Z.to_nat (current_index inst + 1)) with (S (Z.to_nat (current_index inst)))
      in * by lia.
    assert (Hrs : length rs = length calls).
    { apply (f_equal (@length _)) in Hsteps. rewrite !length_map, length_skipn in Hsteps.
      lia. }
    assert (Hlast : is_complete (advanced w inst st ui) = bool_decide (1%nat = S (length rs))).
    { unfold is_complete. simpl. destruct rs as [|r rs].
      - simpl in Hrs. rewrite bool_decide_eq_true_2 by reflexivity. apply Z.leb_le. lia.
      - simpl in Hrs. rewrite bool_decide_eq_false_2 by discriminate. apply Z.leb_gt. lia. }
    eexists _, (orchestrator.Advance_ok (is_complete (advanced w inst st ui))
                  (result_of_step w inst st ui) (advanced w inst st ui) :: rs).
    split.
    { cbn [advance_calls]. rewrite advance_eq, Hget, Ha.
      cbn -[advanced result_of_step is_complete advance_calls].
      rewrite Hseq. cbn -[advanced result_of_step is_complete]. reflexivity. }
    rewrite (skipn_nth_error _ _ _ Hn). split.
    { cbn [map executed_step]. rewrite Hsteps. reflexivity. }
    split.
    { intros [|k] r Hk.
      - injection Hk as <-. rewrite Hlast. eauto.
      - destruct (Hflags k r Hk) as (result & i & ->). simpl length.
        exists result, i. f_equal. apply bool_decide_ext. lia. }
    cbn [instance_after_all fold_left instance_after].
    fold (instance_after_all rs (advanced w inst st ui)).
    split; [exact Hf1|]. split; [exact Hf2|]. split; [exact Hf3|].
    rewrite Hf4, map_app. simpl. now rewrite <- app_assoc.
Qed.

Lemma X12_advancing_to_completion_witness :
  exists t rs,
    advance_calls (id sample_started) sample_calls = (t, Ok rs)
    /\ map executed_step rs
       = map Some (skipn (Z.to_nat (current_index sample_started)) (steps sample_started))
    /\ (forall k r, rs !! k = Some r ->
          exists result i,
            r = orchestrator.Advance_ok (bool_decide (S k = length rs)) result i)
    /\ let final := instance_after_all rs sample_started in
       is_complete final = true
       /\ current_index final = Z.of_nat (length (steps sample_started))
       /\ steps final = steps sample_started
       /\ map step (history final)
          = (map step (history sample_started)
             ++ skipn (Z.to_nat (current_index sample_started)) (steps sample_started))%list.
Proof.
  apply (X12_advancing_to_completion (id sample_started) sample_calls sample_started).
  - simpl. lia.
  - reflexivity.
  - repeat split; vm_compute; reflexivity.
Defined.

(** The three calls on the sample, evaluated: the steps executed and the
    flags reported. *)
Example advancing_sample_to_completion :
  match snd (advance_calls (id sample_started) sample_calls) with
  | Ok rs =>
      map (fun r => match r with
                    | orchestrator.Advance_ok c result _ => Some (step result, c)
                    | _ => None
                    end) rs
  | Raise _ => []
  end
  = [Some (exercise, false); Some (evaluate, false); Some (feedback, true)].
Proof. vm_compute. reflexivity. Qed.

Lemma firstn_S_nth_error {A} (l : list A) (n : nat) (x : A) :
  nth_error l n = Some x -> firstn (S n) l = (firstn n l ++ [x])%list.
Proof.
  revert n. induction l as [|y l IH]; intros [|n] H; try discriminate.
  - now injection H as <-.
  - simpl in H. simpl. f_equal. now apply IH.
Qed.

Lemma nth_error_lookup {A} (l : list A) (n : nat) : nth_error l n = l !! n.
Proof. revert n. induction l as [|y l IH]; intros [|n]; simpl; auto. Qed.

(** X13: on every process reached from [start_process] by [advance] and
    [suggest_next_step] calls, the history records exactly the steps before
    the cursor: the i-th history entry is the result of the i-th step of the
    list, also after suggestions were inserted. *)
Theorem X13_history_matches_executed_steps (inst : ProcessInstance) :
  reachable inst ->
  map step (history inst) = firstn (Z.to_nat (current_index inst)) (steps inst).
Proof.
  induction 1 as [w u tp p t inst Hstart
                 |w pid ui t r inst Hreach IH Hadv
                 |w score apply t r inst inst' Hreach IH Hsug].
  - destruct (start_process_ok _ _ _ _ _ _ Hstart) as (ptype & s & rest & _ & _ & ->).
    reflexivity.
  - destruct (reachable_invariant inst Hreach) as ((H0 & H1) & _ & _).
    destruct (is_complete inst) eqn:Hc.
    + rewrite advance_on_complete in Hadv by exact Hc. injection Hadv as _ <-. exact IH.
    + pose proof Hc as Hc'. unfold is_complete in Hc'. apply Z.leb_gt in Hc'.
      destruct (py_getitem_in_range (steps inst) (current_index inst)) as (st & Hs & Hn);
        [lia|].
      rewrite (advance_on_eq w pid inst ui st Hc Hs) in Hadv. injection Hadv as _ <-.
      simpl. rewrite map_app, IH. simpl.
      replace (Z.to_nat (current_index inst + 1)) with (S (Z.to_nat (current_index inst)))
        by lia.
      now rewrite (firstn_S_nth_error _ _ _ Hn).
  - destruct (reachable_invariant inst Hreach) as ((H0 & H1) & _ & _).
    destruct (is_complete inst) eqn:Hc.
    + unfold orchestrator.suggest_next_step_on in Hsug. rewrite Hc in Hsug.
      injection Hsug as _ <- _. exact IH.
    + destruct (orchestrator.last_known_score inst score) as [ls|e] eqn:Hs.
      * destruct (suggest_on_cases w inst score apply ls Hc H0 Hs)
          as (nxt & sug & rat & conf & _ & _ & Hr).
        cbv zeta in Hr. rewrite Hr in Hsug. destruct apply; injection Hsug as _ <- _;
          [|exact IH].
        destruct (py_slice_nonneg (steps inst) (current_index inst) H0) as [E1 E2].
        simpl. rewrite E1, E2, IH. symmetry. apply take_app_length'.
        rewrite length_take. lia.
      * unfold orchestrator.suggest_next_step_on in Hsug. rewrite Hc, Hs in Hsug.
        discriminate.
Qed.

Lemma X13_history_matches_executed_steps_witness :
  map step (history sample_advanced)
  = firstn (Z.to_nat (current_index sample_advanced)) (steps sample_advanced).
Proof.
  apply (X13_history_matches_executed_steps sample_advanced).
  exact sample_advanced_reachable.
Defined.

(** X14: an applied suggestion is the step the next [advance] executes. On
    a process that is not complete (cursor not negative) and that the store
    holds under the id, [suggest_next_step] with [apply=True] hands to the
    store an instance that is not complete and whose current step is the
    suggested one. When the store then holds that instance under the id,
    [advance] executes the suggested step, returns [completed=False] and
    leaves as current step the step that was planned before the
    suggestion. *)
Theorem X14_applied_suggestion_is_executed_next (w w' : world) (pid : string)
    (inst : ProcessInstance) (score ls : option float) (ui : option string) :
  is_complete inst = false -> 0 <= current_index inst ->
  orchestrator.last_known_score inst score = Ok ls ->
  session_of_response w (db_select w pid) "not_found" = (true, P_session inst) ->
  exists sug c rationale conf planned,
    let n := Z.to_nat (current_index inst) in
    let inst' := set_steps inst (take n (steps inst) ++ sug :: drop n (steps inst))%list in
    orchestrator.suggest_next_step w pid score true
    = ([Db_select pid; Db_update (id inst) (_serialize_instance w inst')],
       Ok (orchestrator.Suggest_ok c (Some (StepType_str sug)) rationale conf true))
    /\ current_step inst = Ok planned
    /\ is_complete inst' = false
    /\ current_step inst' = Ok sug
    /\ (session_of_response w' (db_select w' pid) "not_found" = (true, P_session inst') ->
        exists t result inst'',
          orchestrator.advance w' pid ui
          = (Db_select pid :: t, Ok (orchestrator.Advance_ok false result inst''))
          /\ Exists (fun e => e = Db_update (id inst) (_serialize_instance w' inst'')) t
          /\ step result = sug
          /\ current_step inst'' = Ok planned).
Proof.
  intros Hc H0 Hs Hget.
  destruct (suggest_on_cases w inst score true ls Hc H0 Hs)
    as (nxt & sug & rat & conf & Hn & _ & Hr).
  cbv zeta in Hr.
  destruct (py_slice_nonneg (steps inst) (current_index inst) H0) as [E1 E2].
  rewrite E1, E2 in Hr. clear E1 E2.
  pose proof Hc as Hlt. unfold is_complete in Hlt. apply Z.leb_gt in Hlt.
  exists sug, (is_complete (set_steps inst
                              (take (Z.to_nat (current_index inst)) (steps inst)
                               ++ [sug] ++ drop (Z.to_nat (current_index inst))
                                             (steps inst))%list)), rat, conf, nxt.
  cbv zeta.
  set (n := Z.to_nat (current_index inst)) in *.
  change (take n (steps inst) ++ [sug] ++ drop n (steps inst))%list
    with (take n (steps inst) ++ sug :: drop n (steps inst))%list in *.
  set (inst' := set_steps inst (take n (steps inst) ++ sug :: drop n (steps inst))%list) in *.
  destruct (insert_at_lookup (steps inst) n sug) as (Hlen & _ & Hmid & Hafter);
    [subst n; lia|].
  assert (Hlen' : length (steps inst') = S (length (steps inst))) by exact Hlen.
  assert (Hc' : is_complete inst' = false).
  { unfold is_complete. apply Z.leb_gt. rewrite Hlen'. simpl. lia. }
  assert (Hcur' : current_step inst' = Ok sug).
  { unfold current_step.
    destruct (py_getitem_in_range (steps inst') (current_index inst')) as (x & Hx & Hnx).
    { rewrite Hlen'. simpl. lia. }
    rewrite Hx. f_equal. simpl in Hnx. fold n in Hnx.
    assert (Hm : nth_error (take n (steps inst) ++ sug :: drop n (steps inst)) n
                 = Some sug)
      by (rewrite nth_error_lookup; exact Hmid).
    rewrite Hm in Hnx. now injection Hnx. }
  split; [exact (suggest_by_id_returns _ _ _ _ _ _ _ _ Hget Hr)|].
  split; [exact Hn|]. split; [exact Hc'|]. split; [exact Hcur'|].
  intros Hget'.
  pose proof (advance_on_eq w' pid inst' ui sug Hc' Hcur') as Ha.
  assert (Hnot : is_complete (advanced w' inst' sug ui) = false).
  { unfold is_complete. apply Z.leb_gt. simpl. rewrite Hlen. lia. }
  rewrite Hnot in Ha.
  eexists _, _, _. split; [rewrite advance_eq, Hget', Ha; reflexivity|].
  split; [apply Exists_cons_tl, Exists_cons_hd; reflexivity|].
  split; [reflexivity|].
  unfold current_step.
  destruct (py_getitem_in_range (steps inst) (current_index inst)) as (x & Hx & Hnx);
    [lia|].
  rewrite Hx in Hn. injection Hn as ->.
  destruct (py_getitem_in_range (steps (advanced w' inst' sug ui))
              (current_index (advanced w' inst' sug ui))) as (y & Hy & Hny).
  { simpl. rewrite Hlen. lia. }
  rewrite Hy. f_equal. simpl in Hny.
  replace (Z.to_nat (current_index inst + 1)) with (S n) in Hny by (subst n; lia).
  assert (Hm : nth_error (take n (steps inst) ++ sug :: drop n (steps inst)) (S n)
               = nth_error (steps inst) n)
    by (rewrite !nth_error_lookup; apply Hafter; lia).
  rewrite Hm in Hny. fold n in Hnx. rewrite Hnx in Hny. now injection Hny.
Qed.

Lemma X14_applied_suggestion_is_executed_next_witness :
  (exists c rationale conf,
      orchestrator.suggest_next_step (world_with [value_row sample_evaluated]) "p1" None true
      = ([Db_select "p1";
          Db_update "p1"
            (_serialize_instance (world_with [value_row sample_evaluated])
               (set_steps sample_evaluated [exercise; evaluate; example; feedback]))],
         Ok (orchestrator.Suggest_ok c (Some "StepType.example") rationale conf true)))
  /\ exists t result inst'',
       orchestrator.advance
         (world_with
            [value_row (set_steps sample_evaluated [exercise; evaluate; example; feedback])])
         "p1" None
       = (Db_select "p1" :: t, Ok (orchestrator.Advance_ok false result inst''))
       /\ step result = example
       /\ current_step inst'' = Ok feedback.
Proof.
  destruct (X14_applied_suggestion_is_executed_next
              (world_with [value_row sample_evaluated])
              (world_with
                 [value_row
                    (set_steps sample_evaluated [exercise; evaluate; example; feedback])])
              "p1" sample_evaluated None (Some 0.5%float) None
              eq_refl ltac:(simpl; lia) eq_refl eq_refl)
    as (sug & c & rat & conf & planned & Hsug & Hplanned & _ & _ & Hnext).
  assert (Hsug' := Hsug). vm_compute in Hsug'.
  assert (E : sug = example).
  { destruct sug; first [reflexivity|discriminate Hsug']. }
  subst sug. injection Hplanned as <-.
  split; [exists c, rat, conf; exact Hsug|].
  destruct (Hnext eq_refl) as (t & result & inst'' & Ha & _ & Hstep & Hcur).
  exists t, result, inst''. auto.
Defined.

(** ** Scores outside the table *)





(** ** Completion *)

(** X16: completion is final. On a complete process the bodies of [advance]
    and [suggest_next_step], also with [apply=True], call no collaborator
    and return the process untouched. Called with an id under which the
    store holds the process, both make the read and no other call, so that
    nothing is retrieved and nothing is written, and answer that the process
    is completed, as does the suggest endpoint. No sequence of such calls
    changes a complete process. *)
Theorem X16_completion_is_final (i : ProcessInstance) :
  is_complete i = true ->
  (forall w pid ui,
      orchestrator.advance_on w pid i ui = ([], Ok (orchestrator.Advance_completed i)))
  /\ (forall w score apply,
        orchestrator.suggest_next_step_on w i score apply
        = ([], Ok (i, orchestrator.Suggest_completed)))
  /\ (forall w pid,
        session_of_response w (db_select w pid) "not_found" = (true, P_session i) ->
        (forall ui, orchestrator.advance w pid ui
                    = ([Db_select pid], Ok (orchestrator.Advance_completed i)))
        /\ (forall score apply,
              orchestrator.suggest_next_step w pid score apply
              = ([Db_select pid], Ok orchestrator.Suggest_completed))
        /\ (forall score apply,
              education_api.suggest_next_step w pid score apply
              = ([Db_select pid],
                 Ok (education_api.Response orchestrator.Suggest_completed))))
  /\ (forall j, follows i j -> j = i).
Proof.
  intros Hc.
  assert (Hs : forall w score apply,
             orchestrator.suggest_next_step_on w i score apply
             = ([], Ok (i, orchestrator.Suggest_completed))).
  { intros w score apply. unfold orchestrator.suggest_next_step_on. now rewrite Hc. }
  split; [intros w pid ui; now apply advance_on_complete|]. split; [exact Hs|]. split.
  { intros w pid Hget. split; [|split].
    - intros ui. rewrite advance_eq, Hget, advance_on_complete by exact Hc. reflexivity.
    - intros score apply. rewrite suggest_eq, Hget, Hs. reflexivity.
    - intros score apply. unfold education_api.suggest_next_step.
      rewrite suggest_eq, Hget, Hs. reflexivity. }
  induction 1 as [|w pid ui t r j _ IH Hadv|w score apply t r j j' _ IH Hsug].
  - reflexivity.
  - subst j. rewrite advance_on_complete in Hadv by exact Hc. now injection Hadv as _ <-.
  - subst j. rewrite Hs in Hsug. now injection Hsug as _ <- _.
Qed.

Lemma X16_completion_is_final_witness :
  orchestrator.suggest_next_step (world_with [sample_complete_row]) "p3"
    (Some 0.2%float) true
  = ([Db_select "p3"], Ok orchestrator.Suggest_completed).
Proof.
  apply (proj1 (proj2 (proj1 (proj2 (proj2 (X16_completion_is_final sample_complete eq_refl)))
                         (world_with [sample_complete_row]) "p3" eq_refl))).
Defined.

(** ** Starting through the endpoint *)

Lemma ProcessType_of_value_unknown (v : string) :
  (forall p, v <> ProcessType_value p) ->
  ProcessType_of_value v = Raise (ValueError (Some v) "ProcessType").
Proof.
  intros H. destruct (ProcessType_of_value v) as [p|e] eqn:E.
  - apply ProcessType_of_value_ok in E. now destruct (H p).
  - now rewrite (ProcessType_of_value_raise v e E).
Qed.

(** X17: a process type that is not the value of one of the three process
    types is rejected before anything is done: [start_process] raises
    [ValueError] without calling the store or the progress service, and the
    start endpoint answers 400. *)
Theorem X17_start_rejects_unknown_type (w : world) (req : education_api.StartProcessRequest) :
  (forall p, education_api.req_process_type req <> ProcessType_value p) ->
  orchestrator.start_process w (education_api.req_user_id req)
    (education_api.req_topic req) (education_api.req_process_type req)
  = ([], Raise (ValueError (Some (education_api.req_process_type req)) "ProcessType"))
  /\ education_api.start_process w req
     = ([], Ok (education_api.HTTPException 400
                  (Err_str (ValueError (Some (education_api.req_process_type req))
                              "ProcessType")))).
Proof.
  intros H. apply ProcessType_of_value_unknown in H.
  assert (Hs : orchestrator.start_process w (education_api.req_user_id req)
                 (education_api.req_topic req) (education_api.req_process_type req)
               = ([], Raise (ValueError (Some (education_api.req_process_type req))
                               "ProcessType"))).
  { unfold orchestrator.start_process. now rewrite H. }
  split; [exact Hs|]. unfold education_api.start_process. now rewrite Hs.
Qed.

Lemma X17_start_rejects_unknown_type_witness :
  education_api.start_process (world_with [])
    {| education_api.req_user_id := "u1"; education_api.req_topic := "loops";
       education_api.req_process_type := "Assessment" |}
  = ([], Ok (education_api.HTTPException 400
               (Err_str (ValueError (Some "Assessment") "ProcessType")))).
Proof.
  apply (proj2 (X17_start_rejects_unknown_type (world_with [])
                  {| education_api.req_user_id := "u1"; education_api.req_topic := "loops";
                     education_api.req_process_type := "Assessment" |}
                  ltac:(intros []; discriminate))).
Defined.

(** X18: for each of the three process types the start endpoint makes one
    store call, the insert of a row under the fresh id with cursor 0, an
    empty history and the catalog's steps, then announces the first step to
    the progress service, and answers with the id, the type, the catalog's
    steps and the first of them as current step, the steps written as
    [str] gives them. *)
Theorem X18_start_answers (w : world) (req : education_api.StartProcessRequest)
    (ptype : ProcessType) :
  education_api.req_process_type req = ProcessType_value ptype ->
  exists s rest row,
    get_workflow (ProcessType_value ptype) = Ok (s :: rest)
    /\ education_api.start_process w req
       = ([Db_insert row;
           Progress_start (uuid4 w) "education_process" (education_api.req_topic req)
             (StepType_str s)],
          Ok (education_api.Response
                {| education_api.sp_process_id := uuid4 w;
                   education_api.sp_process_type := ptype;
                   education_api.sp_steps := map StepType_str (s :: rest);
                   education_api.sp_current_step := StepType_str s |}))
    /\ r_id row = uuid4 w
    /\ r_user_id row = education_api.req_user_id req
    /\ r_topic row = education_api.req_topic req
    /\ r_steps row = Some (map StepType_str (s :: rest))
    /\ r_current_index row = Some 0
    /\ r_history row = Some [].
Proof.
  intros Hp.
  assert (Hv : ProcessType_of_value (education_api.req_process_type req) = Ok ptype)
    by (rewrite Hp; apply ProcessType_of_value_value).
  destruct (start_process_eq w (education_api.req_user_id req) (education_api.req_topic req)
              (education_api.req_process_type req) ptype Hv) as (s & rest & Hw & Hs).
  cbv zeta in Hs. exists s, rest. eexists. split; [exact Hw|]. split.
  - unfold education_api.start_process. rewrite Hs. reflexivity.
  - repeat split.
Qed.

Lemma X18_start_answers_witness :
  exists s rest row,
    get_workflow (ProcessType_value guided_practice) = Ok (s :: rest)
    /\ education_api.start_process (world_with [])
         {| education_api.req_user_id := "u1"; education_api.req_topic := "loops";
            education_api.req_process_type := "guided_practice" |}
       = ([Db_insert row;
           Progress_start (uuid4 (world_with [])) "education_process" "loops"
             (StepType_str s)],
          Ok (education_api.Response
                {| education_api.sp_process_id := uuid4 (world_with []);
                   education_api.sp_process_type := guided_practice;
                   education_api.sp_steps := map StepType_str (s :: rest);
                   education_api.sp_current_step := StepType_str s |}))
    /\ r_id row = uuid4 (world_with [])
    /\ r_user_id row = "u1"
    /\ r_topic row = "loops"
    /\ r_steps row = Some (map StepType_str (s :: rest))
    /\ r_current_index row = Some 0
    /\ r_history row = Some [].
Proof.
  apply (X18_start_answers (world_with [])
           {| education_api.req_user_id := "u1"; education_api.req_topic := "loops";
              education_api.req_process_type := "guided_practice" |} guided_practice).
  reflexivity.
Defined.

(** ** Failures of [suggest_next_step] *)

(** X19: [suggest_next_step] raises only before it writes, and only in two
    cases: [OverflowError], when no score is supplied and the score it finds
    in the history is an [int] beyond the range of a float, and
    [IndexError], when the cursor is below [-len(steps)]. The suggest
    endpoint then answers 500, the read being the only call made. *)
Theorem X19_suggest_fails_before_writing (w : world) (inst : ProcessInstance)
    (score : option float) (apply : bool) (e : exn) :
  snd (orchestrator.suggest_next_step_on w inst score apply) = Raise e ->
  fst (orchestrator.suggest_next_step_on w inst score apply) = []
  /\ ((e = OverflowError /\ score = None)
      \/ (e = IndexError /\ current_index inst < - Z.of_nat (length (steps inst))))
  /\ (forall pid,
        session_of_response w (db_select w pid) "not_found" = (true, P_session inst) ->
        education_api.suggest_next_step w pid score apply
        = ([Db_select pid], Ok (education_api.HTTPException 500 (Err_str e)))).
Proof.
  intros He.
  assert (H : orchestrator.suggest_next_step_on w inst score apply = ([], Raise e)
              /\ ((e = OverflowError /\ score = None)
                  \/ (e = IndexError
                      /\ current_index inst < - Z.of_nat (length (steps inst))))).
  { destruct (is_complete inst) eqn:Hc.
    { unfold orchestrator.suggest_next_step_on in He. rewrite Hc in He. discriminate. }
    pose proof Hc as Hlt. unfold is_complete in Hlt. apply Z.leb_gt in Hlt.
    destruct (orchestrator.last_known_score inst score) as [ls|e'] eqn:Hs.
    - destruct (Z.lt_ge_cases (current_index inst) (- Z.of_nat (length (steps inst))))
        as [Hbelow|Hge].
      + unfold orchestrator.suggest_next_step_on in *. rewrite Hc, Hs in *.
        apply Z.ltb_lt in Hlt. rewrite Hlt in *.
        rewrite py_getitem_below in * by exact Hbelow. simpl in He. injection He as <-.
        split; [reflexivity|]. right. auto.
      + exfalso.
        destruct (Z.lt_ge_cases (current_index inst) 0) as [Hneg|Hpos].
        * destruct (py_getitem_negative (steps inst) (current_index inst)) as (x & Hx & _);
            [lia|].
          unfold orchestrator.suggest_next_step_on in He. rewrite Hc, Hs, Hx in He.
          apply Z.ltb_lt in Hlt. rewrite Hlt in He.
          cbn -[is_complete _serialize_instance session_of_response
                orchestrator.decide_suggestion orchestrator.suggestion_str] in He.
          destruct (orchestrator.decide_suggestion (steps inst) (Some x) ls)
            as [[[sg|] rat] conf]; [destruct apply|]; discriminate.
        * destruct (suggest_on_cases w inst score apply ls Hc Hpos Hs)
            as (nxt & sug & rat & conf & _ & _ & Hr).
          cbv zeta in Hr. rewrite Hr in He. destruct apply; discriminate.
    - unfold orchestrator.suggest_next_step_on in *. rewrite Hc, Hs in *.
      simpl in He. injection He as <-. split; [reflexivity|]. left.
      unfold orchestrator.last_known_score in Hs. destruct score; [discriminate|].
      apply scan_last_score_raise in Hs. auto. }
  destruct H as (Hr & Hcases). rewrite Hr. split; [reflexivity|]. split; [exact Hcases|].
  intros pid Hget. unfold education_api.suggest_next_step. rewrite suggest_eq, Hget, Hr.
  reflexivity.
Qed.

Lemma X19_suggest_fails_before_writing_witness :
  fst (orchestrator.suggest_next_step_on (world_with [value_row sample_huge_score])
         sample_huge_score None true) = []
  /\ ((OverflowError = OverflowError /\ @None float = None)
      \/ (OverflowError = IndexError
          /\ current_index sample_huge_score
             < - Z.of_nat (length (steps sample_huge_score))))
  /\ education_api.suggest_next_step (world_with [value_row sample_huge_score]) "p6" None true
     = ([Db_select "p6"], Ok (education_api.HTTPException 500 (Err_str OverflowError))).
Proof.
  destruct (X19_suggest_fails_before_writing (world_with [value_row sample_huge_score])
              sample_huge_score None true OverflowError)
    as (Htrace & Hcases & Hendpoint).
  - vm_compute. reflexivity.
  - split; [exact Htrace|]. split; [exact Hcases|]. apply Hendpoint.
    vm_compute. reflexivity.
Defined.

(** ** Listing *)

Lemma res_map_some_raise {A B} (f : A -> res B) (l : list A) :
  Exists (fun x => exists e, f x = Raise e) l -> exists e, res_map f l = Raise e.
Proof.
  induction 1 as [x l (e & He)|x l _ IH]; simpl.
  - rewrite He. simpl. eauto.
  - destruct (f x) as [y|e]; simpl; [|eauto].
    destruct IH as (e & ->). simpl. eauto.
Qed.

(** X20: the list endpoint queries the table once, newest first, with a
    limit of 100 rows and a filter on the user id only when one is given and
    is not empty, so that an empty user id lists the sessions of every user.
    When every returned row is readable and carries its cursor, the answer
    holds one entry per row, in the order of the rows, [count] being their
    number and [completed] telling whether the cursor has reached the end of
    the steps; no row is an empty list with count 0, not an error. *)
Theorem X20_list_processes_answers (w : world) (db_list : list_query -> db_response)
    (user_id_ : option string) (rows : list session_row) (sessions : list ProcessInstance) :
  db_list {| q_user_id := match user_id_ with
                          | Some "" | None => None
                          | Some u => Some u
                          end;
             q_limit := Some 100 |} = DbData rows ->
  Forall (fun row => exists c, r_current_index row = Some c) rows ->
  Forall2 (fun row inst => _deserialize_instance w row = Ok inst) rows sessions ->
  list_sessions w db_list user_id_ 100
  = (true, L_sessions sessions (Z.of_nat (length rows)))
  /\ list_processes w db_list user_id_
     = education_api.Response
         {| lr_count := Z.of_nat (length rows);
            lr_processes := map summary_of sessions |}
  /\ Forall2 (fun row entry => r_current_index row = Some (ps_current_index entry))
       rows (map summary_of sessions)
  /\ list_processes w db_list (Some "") = list_processes w db_list None.
Proof.
  intros Hq Hcur Hrows.
  assert (Hquery : list_sessions_query user_id_ 100
                   = {| q_user_id := match user_id_ with
                                     | Some "" | None => None
                                     | Some u => Some u
                                     end;
                        q_limit := Some 100 |}).
  { unfold list_sessions_query. destruct user_id_ as [[|a u]|]; reflexivity. }
  assert (Hl : list_sessions w db_list user_id_ 100
               = (true, L_sessions sessions (Z.of_nat (length rows)))).
  { unfold list_sessions. rewrite Hquery, Hq.
    apply res_map_ok in Hrows as Hm. rewrite Hm.
    now rewrite (Forall2_length _ _ _ Hrows). }
  split; [exact Hl|]. split; [|split].
  - unfold list_processes. rewrite Hl. cbn [negb].
    rewrite length_map. now rewrite (Forall2_length _ _ _ Hrows).
  - clear Hq Hl Hquery. induction Hrows as [|row inst rows sessions Hd _ IH]; simpl.
    + constructor.
    + apply Forall_cons in Hcur as [(c & Hc) Hcur]. constructor; [|now apply IH].
      destruct (proj2 (proj2 (deserialize_accepts w row)) inst Hd)
        as (_ & _ & _ & _ & _ & _ & Hi).
      rewrite Hc in Hi. simpl in Hi. simpl. now rewrite Hi.
  - reflexivity.
Qed.

Lemma X20_list_processes_answers_witness :
  list_sessions (world_with []) (sample_table [value_row sample_rescored; sample_bare_row])
    (Some "u1") 100
  = (true,
     L_sessions
       [sample_rescored;
        {| id := "p5"; user_id := "u1"; topic := "loops"; process_type := assessment;
           steps := []; current_index := 0; history := [];
           created_at := "2025-01-01T10:00:00";
           updated_at := "2025-01-01T10:00:00" |}]
       2).
Proof.
  apply (proj1 (X20_list_processes_answers (world_with [])
                  (sample_table [value_row sample_rescored; sample_bare_row]) (Some "u1")
                  [value_row sample_rescored; sample_bare_row]
                  [sample_rescored;
                   {| id := "p5"; user_id := "u1"; topic := "loops";
                      process_type := assessment;
                      steps := []; current_index := 0; history := [];
                      created_at := "2025-01-01T10:00:00";
                      updated_at := "2025-01-01T10:00:00" |}]
                  eq_refl
                  ltac:(repeat constructor; eexists; reflexivity)
                  ltac:(repeat constructor))).
Defined.

(** X21: one unreadable row fails the whole listing. When the store raises,
    or when any returned row is rejected by [_deserialize_instance], as every
    row written by [_serialize_instance] is, [list_sessions] reports failure
    and the list endpoint answers 500. *)
Theorem X21_list_processes_fails (w : world) (db_list : list_query -> db_response)
    (user_id_ : option string) :
  ((exists e, db_list (list_sessions_query user_id_ 100) = DbRaise e)
   \/ (exists rows,
         db_list (list_sessions_query user_id_ 100) = DbData rows
         /\ (Exists (fun row => exists e, _deserialize_instance w row = Raise e) rows
             \/ exists w0 inst, In (_serialize_instance w0 inst) rows))) ->
  exists e,
    list_sessions w db_list user_id_ 100 = (false, L_error (Err_str e))
    /\ list_processes w db_list user_id_ = education_api.HTTPException 500 (Err_str e).
Proof.
  intros H.
  assert (exists e, list_sessions w db_list user_id_ 100 = (false, L_error (Err_str e)))
    as (e & He).
  { unfold list_sessions. destruct H as [(e & ->)|(rows & -> & H)]; [eauto|].
    assert (Hex : Exists (fun row => exists e, _deserialize_instance w row = Raise e) rows).
    { destruct H as [H|(w0 & inst & Hin)]; [exact H|].
      apply List.Exists_exists. exists (_serialize_instance w0 inst). split; [exact Hin|].
      destruct (written_row_not_readable w0 w inst) as (v & c & Hv). eauto. }
    apply res_map_some_raise in Hex as (e & ->). eauto. }
  exists e. split; [exact He|]. unfold list_processes. now rewrite He.
Qed.

Lemma X21_list_processes_fails_witness :
  exists e,
    list_sessions (world_with [])
      (sample_table [value_row sample_rescored;
                     _serialize_instance (world_with []) sample_started])
      None 100
    = (false, L_error (Err_str e))
    /\ list_processes (world_with [])
         (sample_table [value_row sample_rescored;
                        _serialize_instance (world_with []) sample_started])
         None
       = education_api.HTTPException 500 (Err_str e).
Proof.
  apply (X21_list_processes_fails (world_with [])
           (sample_table [value_row sample_rescored;
                          _serialize_instance (world_with []) sample_started]) None).
  right. eexists. split; [reflexivity|]. right.
  exists (world_with []), sample_started. right. left. reflexivity.
Defined.

(** ** Applying a suggestion: the write and the default *)

(** X22: [suggest_next_step] with [apply=True] reports [applied=True]
    whatever the store answers to the update: when the update raises or
    returns no row, [save_session] reports the failure, and the call still
    returns success with [applied=True], as does the suggest endpoint. *)
Theorem X22_applied_is_reported_when_the_write_fails (w : world) (pid : string)
    (inst : ProcessInstance) (score ls : option float) :
  is_complete inst = false -> 0 <= current_index inst ->
  orchestrator.last_known_score inst score = Ok ls ->
  (forall row, db_update w (id inst) row = DbData []
               \/ exists e, db_update w (id inst) row = DbRaise e) ->
  exists inst' sug c rationale conf err,
    orchestrator.suggest_next_step_on w inst score true
    = ([Db_update (id inst) (_serialize_instance w inst')],
       Ok (inst', orchestrator.Suggest_ok c (Some (StepType_str sug)) rationale conf true))
    /\ snd (save_session w inst') = Ok (false, P_error err)
    /\ (session_of_response w (db_select w pid) "not_found" = (true, P_session inst) ->
        education_api.suggest_next_step w pid score true
        = ([Db_select pid; Db_update (id inst) (_serialize_instance w inst')],
           Ok (education_api.Response
                 (orchestrator.Suggest_ok c (Some (StepType_str sug)) rationale conf true)))).
Proof.
  intros Hc H0 Hs Hdown.
  destruct (suggest_on_cases w inst score true ls Hc H0 Hs)
    as (nxt & sug & rat & conf & _ & _ & Hr).
  cbv zeta in Hr.
  set (inst' := set_steps inst
                  (py_slice_to (steps inst) (current_index inst) ++ [sug]
                   ++ py_slice_from (steps inst) (current_index inst))%list) in *.
  assert (exists err, snd (save_session w inst') = Ok (false, P_error err)) as (err & Herr).
  { rewrite save_session_eq. cbn [snd]. change (id inst') with (id inst).
    destruct (Hdown (_serialize_instance w inst')) as [->|(e & ->)]; simpl; eauto. }
  exists inst', sug, (is_complete inst'), rat, conf, err.
  split; [exact Hr|]. split; [exact Herr|]. intros Hget.
  unfold education_api.suggest_next_step. rewrite suggest_eq, Hget, Hr. reflexivity.
Qed.

Lemma X22_applied_is_reported_when_the_write_fails_witness :
  exists inst' sug c rationale conf err,
    orchestrator.suggest_next_step_on (world_store_down [value_row sample_evaluated])
      sample_evaluated None true
    = ([Db_update (id sample_evaluated)
          (_serialize_instance (world_store_down [value_row sample_evaluated]) inst')],
       Ok (inst', orchestrator.Suggest_ok c (Some (StepType_str sug)) rationale conf true))
    /\ snd (save_session (world_store_down [value_row sample_evaluated]) inst')
       = Ok (false, P_error err)
    /\ education_api.suggest_next_step (world_store_down [value_row sample_evaluated])
         "p1" None true
       = ([Db_select "p1";
           Db_update (id sample_evaluated)
             (_serialize_instance (world_store_down [value_row sample_evaluated]) inst')],
          Ok (education_api.Response
                (orchestrator.Suggest_ok c (Some (StepType_str sug)) rationale conf true))).
Proof.
  destruct (X22_applied_is_reported_when_the_write_fails
              (world_store_down [value_row sample_evaluated]) "p1"
              sample_evaluated None (Some 0.5%float))
    as (inst' & sug & c & rat & conf & err & Hon & Hsave & Hendpoint).
  - reflexivity.
  - simpl. lia.
  - reflexivity.
  - intros row. right. eexists. reflexivity.
  - exists inst', sug, c, rat, conf, err.
    split; [exact Hon|]. split; [exact Hsave|]. apply Hendpoint. reflexivity.
Defined.


